(** * The call page (pages/call/[id].tsx): peer session, media and timers

    A shallow embedding of the React component [CallPage] and of the
    handlers it registers on the PeerJS broker connection, on the media
    connection, on timers and on the two buttons.

    How the component is read.

    - [useState] variables are the fields of [PageState].  A setter writes
      the live state of the page; the constants [timeLeft], [localStream],
      [currentCall], [peer], ... that a function of the component body reads
      are those of the render that created the function.  Every handler
      below therefore takes the state it closed over as an argument [snap]
      and acts on the live machine [m].
    - Objects that JavaScript shares by reference (media streams and their
      tracks, media connections, broker connections, the two video
      elements) live in a store, [World]; the page state only holds
      references into it.
    - Calls that leave the page (broker, router, backend API) are appended
      to a log, in order.
    - Results of awaited calls and of [Math.random] are arguments of the
      handler that receives them.  The status polls are split at their
      [await] (request in flight, then resumption); the ['open'] and
      ['call'] handlers run through their awaits of [getUserMedia] and
      [updatePeerId] in one step.
    - The ['stream'] handler of a media connection (lines 171-190) writes
      the remote video element, the status ["Connected"] and the two remote
      indicators; it is left out. *)

From stdpp Require Import gmap strings list.
From stdpp Require Import pretty.

(** ** Media objects *)

Inductive TrackKind := Audio | Video.

Definition kind_eqb (a b : TrackKind) : bool :=
  match a, b with
  | Audio, Audio | Video, Video => true
  | _, _ => false
  end.

(** A media track: [enabled] is the flag the toggles flip, [stops] counts
    the [stop()] calls the track has received (it is live while 0). *)
Record Track := mkTrack { kind : TrackKind; enabled : bool; stops : nat }.

Definition stop_track (t : Track) : Track :=
  mkTrack (kind t) (enabled t) (S (stops t)).

Definition flip_enabled (t : Track) : Track :=
  mkTrack (kind t) (negb (enabled t)) (stops t).

(** [getTracks().forEach(track => track.stop())] *)
Definition stop_all (ts : list Track) : list Track := map stop_track ts.

(** [getAudioTracks()] / [getVideoTracks()] followed by
    [forEach(track => track.enabled = !track.enabled)] *)
Definition flip_kind (k : TrackKind) (ts : list Track) : list Track :=
  map (fun t => if kind_eqb (kind t) k then flip_enabled t else t) ts.

(** What a property read on a plain object can give where the page expects
    a peer id: a string of the object itself or, for a key the object does
    not have, a member every object inherits from [Object.prototype] (a
    function or, for [__proto__], the prototype itself). *)
Inductive JsValue :=
| JsString (s : string)
| JsMember (name : string).

Coercion JsString : string >-> JsValue.

Definition object_prototype_members : list string :=
  ["constructor"; "__defineGetter__"; "__defineSetter__"; "hasOwnProperty";
   "__lookupGetter__"; "__lookupSetter__"; "isPrototypeOf";
   "propertyIsEnumerable"; "toString"; "valueOf"; "__proto__"; "toLocaleString"].

(** A PeerJS media connection: the remote peer id, the local stream handed
    to [call()] or [answer()], and the number of [close()] calls. *)
Record Call := mkCall { cremote : JsValue; cmedia : option nat; ccloses : nat }.

(** A PeerJS broker connection. *)
Record PeerObj := mkPeer { pid : string; destroys : nat; reconnects : nat }.

Definition call_open (c : Call) : bool := Nat.eqb (ccloses c) 0.
Definition call_accepted (c : Call) : bool :=
  match cmedia c with Some _ => call_open c | None => false end.

(** ** Calls that leave the page *)

Inductive Op :=
| OpRegister (id : string)                      (* new Peer(id, ...) *)
| OpCall (p : nat) (remote : JsValue) (s : nat) (* peer.call(remote, stream) *)
| OpAnswer (c : nat) (s : nat)                  (* call.answer(stream) *)
| OpClose (c : nat)                             (* call.close() *)
| OpDestroy (p : nat)                           (* peer.destroy() *)
| OpReconnect (p : nat)                         (* peer.reconnect() *)
| OpPush (url : string)                         (* router.push(url) *)
| OpUpdatePeerId (sid : string) (id : option string).

Definition is_broker_op (o : Op) : bool :=
  match o with
  | OpPush _ | OpUpdatePeerId _ _ => false
  | _ => true
  end.

Definition is_push (o : Op) : bool :=
  match o with OpPush _ => true | _ => false end.

(** ** Page state: the [useState] variables, lines 12-28

    [partnerPeerId] holds what was last passed to its setter; the page
    never reads it.  (React runs a function passed to a setter as an
    updater: for an inherited function the variable holds what the setter
    was given, not what React makes of it.) *)

Record PageState := mkState {
  timeLeft : Z;
  error : option string;
  connectionStatus : string;
  peer : option nat;
  currentCall : option nat;
  localStream : option nat;
  isMuted : bool;
  isVideoOff : bool;
  partnerPeerId : option JsValue;
  remoteIsMuted : bool;
  remoteIsVideoOff : bool
}.

Definition initial_state : PageState :=
  mkState 3600 None "Initializing..." None None None false false None false false.

(** ** The store, the log and the pending timers and requests *)

Record World := mkWorld {
  streams : list (list Track);
  calls : list Call;
  peers : list PeerObj;
  localVideo : option (option nat);   (* localVideoRef.current, its srcObject *)
  remoteVideo : option (option nat);  (* remoteVideoRef.current, its srcObject *)
  log : list Op;
  pollTimers : list (nat * nat);      (* setTimeout(attemptConnection, 1000) *)
  connectReqs : list (nat * nat);     (* attemptConnection awaiting the status *)
  sessionInterval : bool;             (* setInterval(checkSession, 5000) *)
  sessionReqs : nat;                  (* checkSession awaiting the status *)
  countdown : option Z                (* setTimeout(() => setTimeLeft(timeLeft - 1), 1000) *)
}.

Record Machine := mkMachine { st : PageState; w : World }.

(** *** State setters *)

Definition upd_st (f : PageState → PageState) (m : Machine) : Machine :=
  mkMachine (f (st m)) (w m).
Definition upd_w (f : World → World) (m : Machine) : Machine :=
  mkMachine (st m) (f (w m)).

Definition setTimeLeft (v : Z) : Machine → Machine :=
  upd_st (fun s => mkState v (error s) (connectionStatus s) (peer s) (currentCall s)
    (localStream s) (isMuted s) (isVideoOff s) (partnerPeerId s)
    (remoteIsMuted s) (remoteIsVideoOff s)).
Definition setError (v : option string) : Machine → Machine :=
  upd_st (fun s => mkState (timeLeft s) v (connectionStatus s) (peer s) (currentCall s)
    (localStream s) (isMuted s) (isVideoOff s) (partnerPeerId s)
    (remoteIsMuted s) (remoteIsVideoOff s)).
Definition setConnectionStatus (v : string) : Machine → Machine :=
  upd_st (fun s => mkState (timeLeft s) (error s) v (peer s) (currentCall s)
    (localStream s) (isMuted s) (isVideoOff s) (partnerPeerId s)
    (remoteIsMuted s) (remoteIsVideoOff s)).
Definition setPeer (v : option nat) : Machine → Machine :=
  upd_st (fun s => mkState (timeLeft s) (error s) (connectionStatus s) v (currentCall s)
    (localStream s) (isMuted s) (isVideoOff s) (partnerPeerId s)
    (remoteIsMuted s) (remoteIsVideoOff s)).
Definition setCurrentCall (v : option nat) : Machine → Machine :=
  upd_st (fun s => mkState (timeLeft s) (error s) (connectionStatus s) (peer s) v
    (localStream s) (isMuted s) (isVideoOff s) (partnerPeerId s)
    (remoteIsMuted s) (remoteIsVideoOff s)).
Definition setLocalStream (v : option nat) : Machine → Machine :=
  upd_st (fun s => mkState (timeLeft s) (error s) (connectionStatus s) (peer s)
    (currentCall s) v (isMuted s) (isVideoOff s) (partnerPeerId s)
    (remoteIsMuted s) (remoteIsVideoOff s)).
Definition setIsMuted (v : bool) : Machine → Machine :=
  upd_st (fun s => mkState (timeLeft s) (error s) (connectionStatus s) (peer s)
    (currentCall s) (localStream s) v (isVideoOff s) (partnerPeerId s)
    (remoteIsMuted s) (remoteIsVideoOff s)).
Definition setIsVideoOff (v : bool) : Machine → Machine :=
  upd_st (fun s => mkState (timeLeft s) (error s) (connectionStatus s) (peer s)
    (currentCall s) (localStream s) (isMuted s) v (partnerPeerId s)
    (remoteIsMuted s) (remoteIsVideoOff s)).
Definition setPartnerPeerId (v : option JsValue) : Machine → Machine :=
  upd_st (fun s => mkState (timeLeft s) (error s) (connectionStatus s) (peer s)
    (currentCall s) (localStream s) (isMuted s) (isVideoOff s) v
    (remoteIsMuted s) (remoteIsVideoOff s)).

(** *** Store updates *)

Definition with_streams (f : list (list Track) → list (list Track)) : Machine → Machine :=
  upd_w (fun x => mkWorld (f (streams x)) (calls x) (peers x) (localVideo x)
    (remoteVideo x) (log x) (pollTimers x) (connectReqs x) (sessionInterval x)
    (sessionReqs x) (countdown x)).
Definition with_calls (f : list Call → list Call) : Machine → Machine :=
  upd_w (fun x => mkWorld (streams x) (f (calls x)) (peers x) (localVideo x)
    (remoteVideo x) (log x) (pollTimers x) (connectReqs x) (sessionInterval x)
    (sessionReqs x) (countdown x)).
Definition with_peers (f : list PeerObj → list PeerObj) : Machine → Machine :=
  upd_w (fun x => mkWorld (streams x) (calls x) (f (peers x)) (localVideo x)
    (remoteVideo x) (log x) (pollTimers x) (connectReqs x) (sessionInterval x)
    (sessionReqs x) (countdown x)).
Definition with_localVideo (f : option (option nat) → option (option nat)) : Machine → Machine :=
  upd_w (fun x => mkWorld (streams x) (calls x) (peers x) (f (localVideo x))
    (remoteVideo x) (log x) (pollTimers x) (connectReqs x) (sessionInterval x)
    (sessionReqs x) (countdown x)).
Definition with_remoteVideo (f : option (option nat) → option (option nat)) : Machine → Machine :=
  upd_w (fun x => mkWorld (streams x) (calls x) (peers x) (localVideo x)
    (f (remoteVideo x)) (log x) (pollTimers x) (connectReqs x) (sessionInterval x)
    (sessionReqs x) (countdown x)).
Definition emit (o : Op) : Machine → Machine :=
  upd_w (fun x => mkWorld (streams x) (calls x) (peers x) (localVideo x)
    (remoteVideo x) (log x ++ [o]) (pollTimers x) (connectReqs x) (sessionInterval x)
    (sessionReqs x) (countdown x)).
Definition with_pollTimers (f : list (nat * nat) → list (nat * nat)) : Machine → Machine :=
  upd_w (fun x => mkWorld (streams x) (calls x) (peers x) (localVideo x)
    (remoteVideo x) (log x) (f (pollTimers x)) (connectReqs x) (sessionInterval x)
    (sessionReqs x) (countdown x)).
Definition with_connectReqs (f : list (nat * nat) → list (nat * nat)) : Machine → Machine :=
  upd_w (fun x => mkWorld (streams x) (calls x) (peers x) (localVideo x)
    (remoteVideo x) (log x) (pollTimers x) (f (connectReqs x)) (sessionInterval x)
    (sessionReqs x) (countdown x)).
Definition set_sessionInterval (b : bool) : Machine → Machine :=
  upd_w (fun x => mkWorld (streams x) (calls x) (peers x) (localVideo x)
    (remoteVideo x) (log x) (pollTimers x) (connectReqs x) b
    (sessionReqs x) (countdown x)).
Definition set_sessionReqs (n : nat) : Machine → Machine :=
  upd_w (fun x => mkWorld (streams x) (calls x) (peers x) (localVideo x)
    (remoteVideo x) (log x) (pollTimers x) (connectReqs x) (sessionInterval x)
    n (countdown x)).
Definition set_countdown (c : option Z) : Machine → Machine :=
  upd_w (fun x => mkWorld (streams x) (calls x) (peers x) (localVideo x)
    (remoteVideo x) (log x) (pollTimers x) (connectReqs x) (sessionInterval x)
    (sessionReqs x) c).

(** ** Media teardown and the two toggles, lines 258-299 *)

(** [ref.current.srcObject = null], when the element is mounted *)
Definition detach (r : option (option nat)) : option (option nat) :=
  match r with
  | Some _ => Some None
  | None => None
  end.

Definition call_close (c : nat) (m : Machine) : Machine :=
  emit (OpClose c)
    (with_calls (alter (fun x => mkCall (cremote x) (cmedia x) (S (ccloses x))) c) m).

Definition peer_destroy (p : nat) (m : Machine) : Machine :=
  emit (OpDestroy p)
    (with_peers (alter (fun x => mkPeer (pid x) (S (destroys x)) (reconnects x)) p) m).

Definition cleanupMedia (snap : PageState) (m : Machine) : Machine :=
  let m1 := match localStream snap with
            | Some s => setLocalStream None (with_streams (alter stop_all s) m)
            | None => m
            end in
  let m2 := match currentCall snap with
            | Some c => setCurrentCall None (call_close c m1)
            | None => m1
            end in
  let m3 := with_localVideo detach m2 in
  let m4 := with_remoteVideo detach m3 in
  match peer snap with
  | Some p => peer_destroy p m4
  | None => m4
  end.

Definition toggleMute (snap : PageState) (m : Machine) : Machine :=
  match localStream snap with
  | Some s => setIsMuted (negb (isMuted snap)) (with_streams (alter (flip_kind Audio) s) m)
  | None => m
  end.

Definition toggleVideo (snap : PageState) (m : Machine) : Machine :=
  match localStream snap with
  | Some s => setIsVideoOff (negb (isVideoOff snap)) (with_streams (alter (flip_kind Video) s) m)
  | None => m
  end.

(** The buttons are bound, at every render, to the toggle of that render
    (lines 333 and 340), and React renders between two clicks: a click runs
    the toggle that closed over the state the page has now. *)
Definition click_toggleMute (m : Machine) : Machine := toggleMute (st m) m.
Definition click_toggleVideo (m : Machine) : Machine := toggleVideo (st m) m.

(** ** The backend status response *)

(** What [getMatchmakingStatus()] resolves to; the optional fields are
    options, [statusTimeLeft] is in milliseconds. *)
Record Status := mkStatus {
  status : string;
  statusSessionId : option string;
  partnerId : option string;
  peerIds : option (gmap string string);
  statusTimeLeft : option Z
}.

(** JavaScript truthiness of an optional string and of an optional number *)
Definition truthy_str (o : option string) : bool :=
  match o with
  | Some s => negb (String.eqb s "")
  | None => false
  end.

Definition truthy_num (o : option Z) : bool :=
  match o with
  | Some n => negb (Z.eqb n 0)
  | None => false
  end.

(** JavaScript truthiness of what a property read gave *)
Definition truthy_value (o : option JsValue) : bool :=
  match o with
  | Some (JsString a) => negb (String.eqb a "")
  | Some (JsMember _) => true
  | None => false
  end.

(** [obj[key]] on an object decoded from JSON, whose prototype is
    [Object.prototype]: its own entry, else the inherited member of that
    name, else [undefined] *)
Definition get_property (obj : gmap string string) (key : string) : option JsValue :=
  match obj !! key with
  | Some a => Some (JsString a)
  | None =>
      if bool_decide (key ∈ object_prototype_members) then Some (JsMember key)
      else None
  end.

(** [status.partnerId && status.peerIds?.[status.partnerId]], line 106:
    what line 107 reads as the partner's peer id when the condition is
    truthy *)
Definition partner_peer (r : Status) : option JsValue :=
  match partnerId r with
  | Some u =>
      if truthy_str (Some u) then
        match peerIds r with
        | Some ids =>
            if truthy_value (get_property ids u) then get_property ids u else None
        | None => None
        end
      else None
  | None => None
  end.

(** ** The peer effect, lines 45-217 *)

(** What the functions created by one run of the effect close over: the
    state constants of that render, [sessionId] and [user.uid]. *)
Record Closure := mkClosure { csnap : PageState; csid : string; cuid : string }.

Definition attach (s : nat) (r : option (option nat)) : option (option nat) :=
  match r with
  | Some _ => Some (Some s)
  | None => None
  end.

(** [setupMediaStream], lines 69-85; [gum] is what [getUserMedia] gave:
    the tracks of a new stream, or [None] when it threw *)
Definition setupMediaStream (gum : option (list Track)) (m : Machine)
  : option nat * Machine :=
  match gum with
  | Some ts =>
      let s := length (streams (w m)) in
      (Some s, with_localVideo (attach s)
                 (setLocalStream (Some s) (with_streams (fun l => l ++ [ts]) m)))
  | None => (None, setError (Some "Failed to access camera/microphone") m)
  end.

(** [setupCallHandlers], lines 167-203: the state writes; the handlers it
    registers are [call_on_error] and [call_on_close] below *)
Definition setupCallHandlers (c : nat) (m : Machine) : Machine :=
  setConnectionStatus "Call connecting..." (setCurrentCall (Some c) m).

(** [newPeer.call(partnerPeerId, stream)]: the broker connection is taken
    to be usable, the library then returns a new media connection *)
Definition peer_call (p : nat) (remote : JsValue) (s : nat) (m : Machine)
  : nat * Machine :=
  let c := length (calls (w m)) in
  (c, emit (OpCall p remote s) (with_calls (fun l => l ++ [mkCall remote (Some s) 0]) m)).

(** [call.answer(stream)] *)
Definition call_answer (c : nat) (s : nat) (m : Machine) : Machine :=
  emit (OpAnswer c s)
    (with_calls (alter (fun x => mkCall (cremote x) (Some s) (ccloses x)) c) m).

Definition peer_reconnect (p : nat) (m : Machine) : Machine :=
  emit (OpReconnect p)
    (with_peers (alter (fun x => mkPeer (pid x) (destroys x) (S (reconnects x))) p) m).

(** [attemptConnection], lines 101-125, up to its [await]: the status
    request is in flight *)
Definition attemptConnection (p s : nat) (m : Machine) : Machine :=
  with_connectReqs (fun l => l ++ [(p, s)]) m.

(** [attemptConnection] from its [await] on; [resp] is [None] when the
    request was rejected (nothing catches it, the poll ends) *)
Definition attemptConnection_resume (cl : Closure) (p s : nat)
    (resp : option Status) (m : Machine) : Machine :=
  match resp with
  | None => m
  | Some r =>
      match partner_peer r with
      | Some remote =>
          let m1 := setPartnerPeerId (Some remote) m in
          match currentCall (csnap cl) with
          | None => let '(c, m2) := peer_call p remote s m1 in setupCallHandlers c m2
          | Some _ => m1
          end
      | None => with_pollTimers (fun l => l ++ [(p, s)]) m
      end
  end.

Definition myPeerId (cl : Closure) (randomSuffix : string) : string :=
  csid cl +:+ "-" +:+ cuid cl +:+ "-" +:+ randomSuffix.

(** [initializePeer], lines 48-165: a new broker connection under a new id *)
Definition initializePeer (cl : Closure) (randomSuffix : string) (m : Machine)
  : Machine :=
  let p := length (peers (w m)) in
  let id := myPeerId cl randomSuffix in
  setPeer (Some p) (emit (OpRegister id) (with_peers (fun l => l ++ [mkPeer id 0 0]) m)).

Definition peer_id (p : nat) (m : Machine) : string :=
  match peers (w m) !! p with
  | Some x => pid x
  | None => ""
  end.

(** [newPeer.on('open')], lines 87-132 *)
Definition peer_on_open (cl : Closure) (p : nat) (gum : option (list Track))
    (published : bool) (m : Machine) : Machine :=
  let m1 := setConnectionStatus "Connected to server" (setPeer (Some p) m) in
  match setupMediaStream gum m1 with
  | (None, m2) => m2
  | (Some s, m2) =>
      let m3 := emit (OpUpdatePeerId (csid cl) (Some (peer_id p m2))) m2 in
      if published then attemptConnection p s m3
      else setError (Some "Failed to connect with partner") m3
  end.

(** [newPeer.on('call')], lines 134-146; [c] is the incoming connection *)
Definition peer_on_call (cl : Closure) (c : nat) (gum : option (list Track))
    (m : Machine) : Machine :=
  let '(os, m1) := match localStream (csnap cl) with
                   | Some s => (Some s, m)
                   | None => setupMediaStream gum m
                   end in
  match os with
  | None => m1
  | Some s =>
      match currentCall (csnap cl) with
      | None => setupCallHandlers c (call_answer c s m1)
      | Some _ => m1
      end
  end.

(** [newPeer.on('error')], lines 148-156 *)
Definition peer_on_error (cl : Closure) (etype randomSuffix : string)
    (m : Machine) : Machine :=
  if String.eqb etype "unavailable-id" then initializePeer cl randomSuffix m
  else setError (Some ("Connection error: " +:+ etype)) m.

(** [newPeer.on('disconnected')], lines 158-162 *)
Definition peer_on_disconnected (p : nat) (m : Machine) : Machine :=
  peer_reconnect p
    (setConnectionStatus "Disconnected - Attempting to reconnect..." m).

(** [call.on('error')] and [call.on('close')], lines 192-202 *)
Definition call_on_error (cl : Closure) (m : Machine) : Machine :=
  cleanupMedia (csnap cl) (setError (Some "Call connection failed") m).

Definition call_on_close (cl : Closure) (m : Machine) : Machine :=
  cleanupMedia (csnap cl) (setConnectionStatus "Call ended" m).

(** The function the effect returns, lines 207-216 *)
Definition peer_effect_cleanup (cl : Closure) (m : Machine) : Machine :=
  emit (OpUpdatePeerId (csid cl) None) (cleanupMedia (csnap cl) m).

(** ** Session verification, lines 220-245 *)

Definition checkSession (m : Machine) : Machine :=
  set_sessionReqs (S (sessionReqs (w m))) m.

(** [checkSession] from its [await] on; [resp] is [None] when the request
    was rejected *)
Definition checkSession_resume (sid : string) (resp : option Status)
    (m : Machine) : Machine :=
  match resp with
  | None => setError (Some "Failed to verify session") m
  | Some r =>
      if negb (String.eqb (status r) "in_session")
         || negb (bool_decide (statusSessionId r = Some sid))
      then emit (OpPush "/") m
      else if truthy_num (statusTimeLeft r)
           then setTimeLeft (default 0%Z (statusTimeLeft r) `div` 1000) m
           else m
  end.

Definition session_effect (m : Machine) : Machine :=
  checkSession (set_sessionInterval true m).

Definition session_effect_cleanup (m : Machine) : Machine :=
  set_sessionInterval false m.

(** ** The countdown, lines 248-256 *)

Definition timer_effect (snap : PageState) (sid : string) (m : Machine) : Machine :=
  if (timeLeft snap <=? 0)%Z
  then emit (OpPush ("/chat/" +:+ sid)) (cleanupMedia snap m)
  else set_countdown (Some (timeLeft snap)) m.

Definition timer_effect_cleanup (m : Machine) : Machine := set_countdown None m.

(** The pending countdown callback: [setTimeLeft(timeLeft - 1)] with the
    [timeLeft] of the render that scheduled it *)
Definition countdown_fires (m : Machine) : Machine :=
  match countdown (w m) with
  | Some t => setTimeLeft (t - 1) (set_countdown None m)
  | None => m
  end.

(** ** The event loop *)

(** After a handler has run React renders again.  The countdown effect
    depends on [timeLeft]: when the value differs from that of the previous
    render, [prev], its cleanup runs and then the effect of the new render. *)
Definition render (prev : Z) (sid : string) (m : Machine) : Machine :=
  if (timeLeft (st m) =? prev)%Z then m
  else timer_effect (st m) sid (timer_effect_cleanup m).

Inductive Event :=
| EOpen (p : nat) (gum : option (list Track)) (published : bool)
| EPollFire
| EPollResp (resp : option Status)
| EOffer (remote : string) (gum : option (list Track))
| EPeerError (etype randomSuffix : string)
| EDisconnected (p : nat)
| ECallError
| ECallClose
| ECheckFire
| ECheckResp (resp : option Status)
| ETick
| EMute
| EVideo.

Definition handle (cl : Closure) (e : Event) (m : Machine) : Machine :=
  match e with
  | EOpen p gum published => peer_on_open cl p gum published m
  | EPollFire =>
      match pollTimers (w m) with
      | (p, s) :: rest => attemptConnection p s (with_pollTimers (fun _ => rest) m)
      | [] => m
      end
  | EPollResp resp =>
      match connectReqs (w m) with
      | (p, s) :: rest =>
          attemptConnection_resume cl p s resp (with_connectReqs (fun _ => rest) m)
      | [] => m
      end
  | EOffer remote gum =>
      let c := length (calls (w m)) in
      peer_on_call cl c gum (with_calls (fun l => l ++ [mkCall remote None 0]) m)
  | EPeerError etype randomSuffix => peer_on_error cl etype randomSuffix m
  | EDisconnected p => peer_on_disconnected p m
  | ECallError => call_on_error cl m
  | ECallClose => call_on_close cl m
  | ECheckFire => if sessionInterval (w m) then checkSession m else m
  | ECheckResp resp =>
      match sessionReqs (w m) with
      | S n => checkSession_resume (csid cl) resp (set_sessionReqs n m)
      | O => m
      end
  | ETick => countdown_fires m
  | EMute => click_toggleMute m
  | EVideo => click_toggleVideo m
  end.

Definition step (cl : Closure) (e : Event) (m : Machine) : Machine :=
  render (timeLeft (st m)) (csid cl) (handle cl e m).

Definition run (cl : Closure) (es : list Event) (m : Machine) : Machine :=
  fold_left (fun acc e => step cl e acc) es m.

(** Once the page is gone nothing renders any more: an event that still
    arrives only runs its handler. *)
Definition run_detached (cl : Closure) (es : list Event) (m : Machine) : Machine :=
  fold_left (fun acc e => handle cl e acc) es m.

(** Leaving the page: the cleanups of the three effects, in order *)
Definition unmount (cl : Closure) (m : Machine) : Machine :=
  timer_effect_cleanup (session_effect_cleanup (peer_effect_cleanup cl m)).

(** The page as first rendered with a user and a session id: nothing in the
    store but the two video elements; the three effects have run. *)
Definition empty_world : World :=
  mkWorld [] [] [] (Some None) (Some None) [] [] [] false 0 None.

Definition mount_closure (sid uid : string) : Closure :=
  mkClosure initial_state sid uid.

Definition mount (sid uid randomSuffix : string) : Machine :=
  timer_effect initial_state sid
    (session_effect
       (initializePeer (mount_closure sid uid) randomSuffix
          (mkMachine initial_state empty_world))).

(** A new [user] object reaches the page.  The peer effect and the session
    effect depend on it: React runs their cleanups, then the effects of the
    new render, whose functions close over the state of that render. *)
Definition user_changes (cl : Closure) (uid' randomSuffix : string) (m : Machine)
  : Closure * Machine :=
  let cl' := mkClosure (st m) (csid cl) uid' in
  (cl', session_effect
          (initializePeer cl' randomSuffix
             (session_effect_cleanup (peer_effect_cleanup cl m)))).

Definition ticks (n : nat) : list Event := replicate n ETick.

(** Counting in the store and in the log *)
Definition accepted_calls (m : Machine) : nat :=
  length (filter (fun c => call_accepted c = true) (calls (w m))).

Definition pushes (m : Machine) : list Op :=
  filter (fun o => is_push o = true) (log (w m)).

Definition broker_ops (m : Machine) : list Op :=
  filter (fun o => is_broker_op o = true) (log (w m)).

(** ** What the call page shows, lines 362-386 *)

(** [{error || connectionStatus}], line 366 *)
Definition statusBadge (s : PageState) : string :=
  if truthy_str (error s) then default "" (error s) else connectionStatus s.

(** The first [n] characters of [padString] repeated over and over *)
Fixpoint pad_cycle (n : nat) (rest padString : string) : string :=
  match n with
  | O => ""
  | S k =>
      match rest with
      | String c rest' => String c (pad_cycle k rest' padString)
      | EmptyString =>
          match padString with
          | String c rest' => String c (pad_cycle k rest' padString)
          | EmptyString => ""
          end
      end
  end.

(** [s.padStart(targetLength, padString)] *)
Definition padStart (targetLength : nat) (padString s : string) : string :=
  pad_cycle (targetLength - String.length s) padString padString +:+ s.

(** [Math.floor(timeLeft / 60)] and [timeLeft % 60], line 385; the
    remainder of JavaScript takes the sign of the dividend *)
Definition displayMinutes (t : Z) : Z := t `div` 60.
Definition displaySeconds (t : Z) : Z := t `rem` 60.

(** The countdown as shown, line 385; [pretty] prints an integer as
    [toString] does (decimal digits, a leading minus sign) *)
Definition timeDisplay (t : Z) : string :=
  pretty (displayMinutes t) +:+ ":" +:+ padStart 2 "0" (pretty (displaySeconds t)).

(** ** Quantities read off the machine *)

(** Discovery polls under way: armed timeouts and requests in flight *)
Definition pending_polls (m : Machine) : nat :=
  length (pollTimers (w m)) + length (connectReqs (w m)).

Definition is_open (e : Event) : bool :=
  match e with EOpen _ _ _ => true | _ => false end.

Definition opens (es : list Event) : nat :=
  length (filter (fun e => is_open e = true) es).

(** The countdown timeout is armed exactly while [timeLeft] is positive,
    and then carries the [timeLeft] of the state *)
Definition timer_inv (m : Machine) : Prop :=
  countdown (w m) = if (timeLeft (st m) <=? 0)%Z then None else Some (timeLeft (st m)).

(** The routes the call page may push *)
Definition page_route (cl : Closure) (o : Op) : Prop :=
  match o with
  | OpPush url => url = "/" ∨ url = "/chat/" +:+ csid cl
  | _ => True
  end.

Definition is_video (t : Track) : bool := kind_eqb (kind t) Video.
Definition is_audio (t : Track) : bool := kind_eqb (kind t) Audio.

(** ** Inputs used in the examples *)

(** What [getUserMedia({video: true, audio: true})] gives: one live audio
    track and one live video track, both enabled *)
Definition cam : list Track := [mkTrack Audio true 0; mkTrack Video true 0].

Definition status_in_session (sid : string) (t : option Z) : Status :=
  mkStatus "in_session" (Some sid) None None t.

Definition status_partner (sid : string) : Status :=
  mkStatus "in_session" (Some sid) (Some "bob")
    (Some {["bob" := sid +:+ "-bob-k2"]}) None.

Definition status_idle : Status := mkStatus "idle" None None None None.

(** A response whose [partnerId] is the name of a member every object
    inherits, with no entry of that name in [peerIds] *)
Definition status_inherited (sid : string) : Status :=
  mkStatus "in_session" (Some sid) (Some "constructor") (Some ∅) None.

Definition cl0 : Closure := mount_closure "s1" "alice".

(** Mounted, broker connection open, camera acquired, peer id published:
    the first partner-discovery request is in flight. *)
Definition m_open : Machine :=
  step cl0 (EOpen 0 (Some cam) true) (mount "s1" "alice" "k1").

(** The countdown seeded at 10 seconds by a session check *)
Definition m_seeded : Machine :=
  step cl0 (ECheckResp (Some (status_in_session "s1" (Some 10000%Z)))) m_open.

(** The countdown seeded at 500 seconds, two ticks, then the interval
    starts a session check whose response names another session *)
Definition m_500 : Machine :=
  step cl0 (ECheckResp (Some (status_in_session "s1" (Some 500000%Z)))) m_open.

Definition override_run : list Event :=
  [ETick; ETick; ECheckFire; ECheckResp (Some (status_in_session "s2" (Some 400000%Z)))].

(** The partner's id is discovered, then the partner's own offer arrives *)
Definition race : list Event :=
  [EPollResp (Some (status_partner "s1")); EOffer "s1-bob-k2" (Some cam)].

(** The effects run again for a new [user] object while the camera is on;
    the new broker connection opens, captures and publishes its id; an
    offer then reaches the handler registered by that run *)
Definition cl1 : Closure := fst (user_changes cl0 "alice" "k3" m_open).
Definition m_rerun : Machine := snd (user_changes cl0 "alice" "k3" m_open).
Definition m_answered : Machine :=
  run cl1 [EOpen 1 (Some cam) true; EOffer "s1-bob-k2" None] m_rerun.


(** * The landing page (pages/index.tsx) *)

(** The same reading as for the call page.  [checkStatus] is split at its
    first [await]; from the status reply on it runs through the [await] of
    [createMatch] up to the call of [router.push]; a rejected [router.push]
    is an event of its own. *)
Module Home.

(** [MatchmakingStatus], lines 10-20; dates and times are milliseconds *)
Record MatchmakingStatus := mkStatus {
  s_status : string;
  s_timeLeft : option Z;
  s_sessionId : option string;
  s_cooldownEnd : option Z;
  s_queuedAt : option Z;
  s_queuePosition : option Z;
  s_totalInQueue : option Z;
  s_connectionStatus : option string;
  s_lastUpdated : option Z
}.

(** The [useState] variables, lines 25-30 *)
Record State := mkState {
  isSearching : bool;
  error : option string;
  status : MatchmakingStatus;
  lastStatusUpdate : Z;
  connectionStatus : string;
  isRedirecting : bool
}.

Inductive Op :=
| OpGetStatus              (* getMatchmakingStatus() *)
| OpCreateMatch            (* createMatch() *)
| OpJoin                   (* joinMatchmaking() *)
| OpCancel                 (* cancelMatchmaking() *)
| OpPush (url : string).   (* router.push(url) *)

Record Machine := mkMachine {
  st : State;
  log : list Op;
  interval : bool;        (* setInterval(checkStatus, 5000) *)
  effect : option bool;   (* the [isRedirecting] the live effect closed over *)
  requests : nat          (* checkStatus awaiting the status *)
}.

Definition upd_st (f : State → State) (m : Machine) : Machine :=
  mkMachine (f (st m)) (log m) (interval m) (effect m) (requests m).

Definition setIsSearching (v : bool) : Machine → Machine :=
  upd_st (fun s => mkState v (error s) (status s) (lastStatusUpdate s)
                     (connectionStatus s) (isRedirecting s)).
Definition setError (v : option string) : Machine → Machine :=
  upd_st (fun s => mkState (isSearching s) v (status s) (lastStatusUpdate s)
                     (connectionStatus s) (isRedirecting s)).
Definition setStatus (v : MatchmakingStatus) : Machine → Machine :=
  upd_st (fun s => mkState (isSearching s) (error s) v (lastStatusUpdate s)
                     (connectionStatus s) (isRedirecting s)).
Definition setLastStatusUpdate (v : Z) : Machine → Machine :=
  upd_st (fun s => mkState (isSearching s) (error s) (status s) v
                     (connectionStatus s) (isRedirecting s)).
Definition setConnectionStatus (v : string) : Machine → Machine :=
  upd_st (fun s => mkState (isSearching s) (error s) (status s) (lastStatusUpdate s)
                     v (isRedirecting s)).
Definition setIsRedirecting (v : bool) : Machine → Machine :=
  upd_st (fun s => mkState (isSearching s) (error s) (status s) (lastStatusUpdate s)
                     (connectionStatus s) v).

Definition emit (o : Op) (m : Machine) : Machine :=
  mkMachine (st m) (log m ++ [o]) (interval m) (effect m) (requests m).
Definition set_interval (b : bool) (m : Machine) : Machine :=
  mkMachine (st m) (log m) b (effect m) (requests m).
Definition set_effect (e : option bool) (m : Machine) : Machine :=
  mkMachine (st m) (log m) (interval m) e (requests m).
Definition set_requests (n : nat) (m : Machine) : Machine :=
  mkMachine (st m) (log m) (interval m) (effect m) n.

(** A value inside a template literal: [undefined] prints as itself *)
Definition template (o : option string) : string := default "undefined" o.

(** [statusData.totalInQueue >= 2]: false for [undefined] *)
Definition at_least_two (o : option Z) : bool :=
  match o with
  | Some n => (2 <=? n)%Z
  | None => false
  end.

(** [checkStatus], lines 41-47, up to its first [await]; [redirecting] is
    the [isRedirecting] of the closure *)
Definition checkStatus (redirecting : bool) (m : Machine) : Machine :=
  if redirecting then m
  else set_requests (S (requests m))
         (emit OpGetStatus (setConnectionStatus "Checking status..." m)).

(** [checkStatus], lines 47-90, from the status reply on.  [now] is
    [new Date()]; [resp] is [None] when the request was rejected;
    [matchResult] is [None] when [createMatch()] was rejected and otherwise
    the [sessionId] of its result. *)
Definition checkStatus_resume (now : Z) (resp : option MatchmakingStatus)
    (matchResult : option (option string)) (m : Machine) : Machine :=
  match resp with
  | None =>
      setError (Some "Failed to connect to server")
        (setConnectionStatus "Connection lost, retrying..." m)
  | Some d =>
      let m1 := setConnectionStatus "Connected"
                  (setLastStatusUpdate now (setStatus d m)) in
      if String.eqb (s_status d) "in_session" then
        emit (OpPush ("/call/" +:+ template (s_sessionId d)))
          (setConnectionStatus "Active video call found, redirecting..."
             (setIsRedirecting true m1))
      else if String.eqb (s_status d) "in_chat" then
        emit (OpPush ("/chat/" +:+ template (s_sessionId d)))
          (setConnectionStatus "Active chat found, redirecting..."
             (setIsRedirecting true m1))
      else if String.eqb (s_status d) "queued" then
        if at_least_two (s_totalInQueue d) then
          let m2 := emit OpCreateMatch
                      (setConnectionStatus "Attempting to create match..." m1) in
          match matchResult with
          | None => setConnectionStatus "Match creation failed, retrying..." m2
          | Some sid =>
              if truthy_str sid then
                emit (OpPush ("/call/" +:+ template sid))
                  (setConnectionStatus "Match found! Redirecting..."
                     (setIsRedirecting true m2))
              else m2
          end
        else m1
      else m1
  end.

(** A rejected [router.push]: the [catch] of lines 78-81 for the push
    after [createMatch] ([inner]), the one of lines 85-89 otherwise *)
Definition push_rejected (inner : bool) (m : Machine) : Machine :=
  if inner then setConnectionStatus "Match creation failed, retrying..." m
  else setError (Some "Failed to connect to server")
         (setConnectionStatus "Connection lost, retrying..." m).

(** The effect of lines 38-99 and the function it returns *)
Definition effect_run (redirecting : bool) (m : Machine) : Machine :=
  checkStatus redirecting (set_interval true (set_effect (Some redirecting) m)).

Definition effect_cleanup (m : Machine) : Machine :=
  setIsRedirecting false (set_interval false m).

(** One render: the effect depends on [isRedirecting]; when the value
    differs from the one the live effect closed over, its cleanup runs and
    then the effect of this render, closed over the value of this render *)
Definition render (m : Machine) : Machine :=
  match effect m with
  | Some r =>
      if Bool.eqb r (isRedirecting (st m)) then m
      else effect_run (isRedirecting (st m)) (effect_cleanup m)
  | None => m
  end.

(** The cleanup writes state, so a render can ask for another one *)
Definition settle (m : Machine) : Machine := render (render m).

(** [startMatching], lines 101-119; [resp] is [None] when
    [joinMatchmaking()] was rejected, otherwise the [error] of the response *)
Definition startMatching (resp : option (option string)) (m : Machine) : Machine :=
  let m1 := emit OpJoin (setIsSearching true (setError None m)) in
  match resp with
  | Some e => if truthy_str e then setIsSearching false (setError e m1) else m1
  | None => setIsSearching false (setError (Some "Failed to join matchmaking") m1)
  end.

(** [cancelSearch], lines 121-130 *)
Definition cancelSearch (ok : bool) (m : Machine) : Machine :=
  let m1 := emit OpCancel (setError None m) in
  if ok then setIsSearching false m1
  else setError (Some "Failed to cancel matchmaking") m1.

Inductive Event :=
| ETick
| EReply (now : Z) (resp : option MatchmakingStatus) (matchResult : option (option string))
| EPushRejected (inner : bool)
| EStart (resp : option (option string))
| ECancel (ok : bool).

Definition handle (e : Event) (m : Machine) : Machine :=
  match e with
  | ETick => if interval m then checkStatus (default false (effect m)) m else m
  | EReply now resp matchResult =>
      match requests m with
      | S n => checkStatus_resume now resp matchResult (set_requests n m)
      | O => m
      end
  | EPushRejected inner => push_rejected inner m
  | EStart resp => startMatching resp m
  | ECancel ok => cancelSearch ok m
  end.

Definition step (e : Event) (m : Machine) : Machine := settle (handle e m).

Definition run (es : list Event) (m : Machine) : Machine :=
  fold_left (fun acc e => step e acc) es m.

(** The page of a signed-in user after its first render and effect *)
Definition initial_state (now : Z) : State :=
  mkState false None (mkStatus "idle" None None None None None None None None)
    now "" false.

Definition mount (now : Z) : Machine :=
  effect_run false (mkMachine (initial_state now) [] false None 0).

(** A page at rest: the live effect closed over [false], the flag is
    [false], the interval is armed *)
Definition settled (m : Machine) : Prop :=
  effect m = Some false ∧ isRedirecting (st m) = false ∧ interval m = true.

Definition is_push (o : Op) : bool :=
  match o with OpPush _ => true | _ => false end.

Definition pushes (m : Machine) : list Op :=
  filter (fun o => is_push o = true) (log m).

(** [formatTime], lines 132-137 *)
Definition formatTime (ms : Z) : string :=
  let seconds := (ms `div` 1000)%Z in
  let minutes := (seconds `div` 60)%Z in
  let remainingSeconds := (seconds `rem` 60)%Z in
  pretty minutes +:+ ":" +:+ padStart 2 "0" (pretty remainingSeconds).

End Home.

(** * Properties *)

(** ** Records and lists *)

Lemma machine_eta (m : Machine) : mkMachine (st m) (w m) = m.
Proof. by destruct m. Qed.

Lemma flip_enabled_invol (t : Track) : flip_enabled (flip_enabled t) = t.
Proof. destruct t as [k e n]. unfold flip_enabled; simpl. by rewrite negb_involutive. Qed.

Lemma flip_kind_invol (k : TrackKind) (ts : list Track) :
  flip_kind k (flip_kind k ts) = ts.
Proof.
  unfold flip_kind. induction ts as [|t ts IH]; simpl; [done|].
  rewrite IH. f_equal.
  destruct (kind_eqb (kind t) k) eqn:E.
  - simpl. rewrite E. apply flip_enabled_invol.
  - by rewrite E.
Qed.

Lemma alter_invol {A} (f : A → A) (i : nat) (l : list A) :
  (∀ x, f (f x) = x) → alter f i (alter f i l) = l.
Proof.
  intros Hf. rewrite list_alter_alter_eq. apply list_alter_id.
  intros x. simpl. apply Hf.
Qed.

Lemma append_inj_r (a b c : string) : a +:+ b = a +:+ c → b = c.
Proof.
  induction a as [|x a IH]; simpl; [done|].
  intros H. injection H as H. by apply IH.
Qed.

Lemma myPeerId_inj (cl : Closure) (r1 r2 : string) :
  myPeerId cl r1 = myPeerId cl r2 → r1 = r2.
Proof.
  unfold myPeerId. intros H.
  do 4 apply append_inj_r in H. exact H.
Qed.

(** ** The toggles *)

(** C7.  Two clicks on the mute button give back the page as it was: every
    track of the local stream has its [enabled] flag again, [isMuted] has
    its value again, and neither click calls the broker (the log, the media
    connections and the broker connections are those of before). *)
Theorem mute_toggle_twice (m : Machine) :
  let m1 := click_toggleMute m in
  let m2 := click_toggleMute m1 in
  m2 = m
  ∧ streams (w m2) = streams (w m)
  ∧ isMuted (st m2) = isMuted (st m)
  ∧ log (w m1) = log (w m) ∧ log (w m2) = log (w m)
  ∧ calls (w m1) = calls (w m) ∧ peers (w m1) = peers (w m).
Proof.
  assert (H : click_toggleMute (click_toggleMute m) = m).
  { destruct m as [s x]. unfold click_toggleMute, toggleMute; simpl.
    destruct (localStream s) as [i|] eqn:E; simpl; [|by rewrite E].
    rewrite E. destruct s, x; simpl in *.
    unfold setIsMuted, with_streams, upd_st, upd_w; simpl.
    rewrite negb_involutive, alter_invol by apply flip_kind_invol. done. }
  simpl. rewrite H. repeat split.
  all: unfold click_toggleMute, toggleMute; by destruct (localStream (st m)).
Qed.

(** The same for the camera button. *)
Lemma video_toggle_twice (m : Machine) :
  click_toggleVideo (click_toggleVideo m) = m.
Proof.
  destruct m as [s x]. unfold click_toggleVideo, toggleVideo; simpl.
  destruct (localStream s) as [i|] eqn:E; simpl; [|by rewrite E].
  rewrite E. destruct s, x; simpl in *.
  unfold setIsVideoOff, with_streams, upd_st, upd_w; simpl.
  rewrite negb_involutive, alter_invol by apply flip_kind_invol. done.
Qed.

(** While a stream is there, one click does flip the audio tracks and the
    indicator, and leaves video tracks alone. *)
Lemma mute_toggle_once (m : Machine) (s : nat) (ts : list Track) :
  localStream (st m) = Some s → streams (w m) !! s = Some ts →
  streams (w (click_toggleMute m)) !! s = Some (flip_kind Audio ts)
  ∧ isMuted (st (click_toggleMute m)) = negb (isMuted (st m)).
Proof.
  intros Hs Hts. unfold click_toggleMute, toggleMute. rewrite Hs. simpl.
  by rewrite list_lookup_alter_eq, Hts.
Qed.

(** C9.  A toggle whose closure holds no local stream does nothing at all:
    the machine (flags, other state, store and log) is the one of before. *)
Theorem toggle_without_stream (snap : PageState) (m : Machine) :
  localStream snap = None →
  toggleMute snap m = m ∧ toggleVideo snap m = m.
Proof. intros H. unfold toggleMute, toggleVideo. by rewrite H. Qed.

Lemma toggle_without_stream_witness :
  localStream initial_state = None
  ∧ toggleMute initial_state (mkMachine initial_state empty_world)
    = mkMachine initial_state empty_world
  ∧ toggleVideo initial_state (mkMachine initial_state empty_world)
    = mkMachine initial_state empty_world.
Proof.
  split; [reflexivity|].
  apply (toggle_without_stream initial_state (mkMachine initial_state empty_world)).
  reflexivity.
Defined.

(** ** Session verification *)

Lemma checkSession_resume_redirect (sid : string) (r : Status) (m : Machine) :
  status r ≠ "in_session" ∨ statusSessionId r ≠ Some sid →
  checkSession_resume sid (Some r) m = emit (OpPush "/") m.
Proof.
  intros H. unfold checkSession_resume.
  destruct (String.eqb (status r) "in_session") eqn:E1; simpl; [|done].
  apply String.eqb_eq in E1.
  destruct H as [H|H]; [done|].
  by rewrite bool_decide_eq_false_2.
Qed.

(** C5.  A status response that is not [in_session], or that names another
    session, sends the page to ["/"] at once, whatever the countdown shows:
    the page state ([timeLeft] included) and the pending countdown are
    untouched and the only thing the handler does is [router.push("/")];
    the same holds for the whole step of the event loop. *)
Theorem authority_override (sid : string) (r : Status) (m : Machine) :
  status r ≠ "in_session" ∨ statusSessionId r ≠ Some sid →
  let m' := checkSession_resume sid (Some r) m in
  st m' = st m
  ∧ timeLeft (st m') = timeLeft (st m)
  ∧ countdown (w m') = countdown (w m)
  ∧ log (w m') = log (w m) ++ [OpPush "/"]
  ∧ (∀ cl n, csid cl = sid → sessionReqs (w m) = S n →
       step cl (ECheckResp (Some r)) m = emit (OpPush "/") (set_sessionReqs n m)).
Proof.
  intros H m'. subst m'. rewrite checkSession_resume_redirect by done.
  repeat split. intros cl n Hsid Hn.
  unfold step, handle. rewrite Hn, Hsid, checkSession_resume_redirect by done.
  unfold render. simpl. by rewrite Z.eqb_refl.
Qed.

Lemma authority_override_witness :
  (status status_idle ≠ "in_session" ∨ statusSessionId status_idle ≠ Some "s1")
  ∧ timeLeft (st (checkSession_resume "s1" (Some status_idle) (setTimeLeft 498 m_open)))
    = timeLeft (st (setTimeLeft 498 m_open))
  ∧ log (w (checkSession_resume "s1" (Some status_idle) (setTimeLeft 498 m_open)))
    = log (w (setTimeLeft 498 m_open)) ++ [OpPush "/"].
Proof.
  assert (Hne : status status_idle ≠ "in_session"
                ∨ statusSessionId status_idle ≠ Some "s1") by (left; discriminate).
  split; [exact Hne|].
  destruct (authority_override "s1" status_idle (setTimeLeft 498 m_open) Hne)
    as (_ & H1 & _ & H2 & _).
  split; [exact H1|exact H2].
Defined.

(** The example of the specification: seeded at 500, the response with
    another session id arrives after two ticks; the redirect is the only
    navigation, it comes with that response and the countdown stays at 498. *)
Example authority_override_at_tick_two :
  pushes (run cl0 [ETick; ETick; ECheckFire] m_500) = []
  ∧ pushes (run cl0 override_run m_500) = [OpPush "/"]
  ∧ timeLeft (st (run cl0 override_run m_500)) = 498%Z.
Proof. vm_compute. repeat split. Qed.

(** C10, as the code has it.  For a response that is [in_session] with the
    page's session id: an absent [timeLeft] or a [timeLeft] of 0 leaves the
    machine as it was; every other number, negative ones included, sets the
    countdown to the floor of [timeLeft / 1000] and changes nothing else. *)
Theorem resync_timeLeft (sid : string) (r : Status) (m : Machine) :
  status r = "in_session" → statusSessionId r = Some sid →
  let m' := checkSession_resume sid (Some r) m in
  (statusTimeLeft r = None ∨ statusTimeLeft r = Some 0%Z → m' = m)
  ∧ (∀ t, statusTimeLeft r = Some t → t ≠ 0%Z →
       m' = setTimeLeft (t `div` 1000) m
       ∧ timeLeft (st m') = (t `div` 1000)%Z
       ∧ (1000 * timeLeft (st m') ≤ t < 1000 * timeLeft (st m') + 1000)%Z).
Proof.
  intros Hs Hid m'. subst m'. unfold checkSession_resume.
  rewrite Hs, Hid. simpl. rewrite bool_decide_eq_true_2 by done. simpl.
  split.
  - intros [H|H]; by rewrite H.
  - intros t Ht Hne. rewrite Ht. simpl.
    destruct (Z.eqb_spec t 0) as [->|_]; [done|]. simpl.
    split; [done|]. split; [done|].
    pose proof (Z.mul_div_le t 1000 ltac:(lia)).
    pose proof (Z.mul_succ_div_gt t 1000 ltac:(lia)). lia.
Qed.

Lemma resync_timeLeft_witness :
  status (status_in_session "s1" (Some 10999%Z)) = "in_session"
  ∧ statusSessionId (status_in_session "s1" (Some 10999%Z)) = Some "s1"
  ∧ timeLeft (st (checkSession_resume "s1"
                    (Some (status_in_session "s1" (Some 10999%Z))) m_open))
    = (10999 `div` 1000)%Z.
Proof.
  split; [reflexivity|]. split; [reflexivity|].
  destruct (resync_timeLeft "s1" (status_in_session "s1" (Some 10999%Z)) m_open
              eq_refl eq_refl) as [_ H].
  assert (Hne : 10999%Z ≠ 0%Z) by lia.
  destruct (H 10999%Z eq_refl Hne) as (_ & H1 & _).
  exact H1.
Defined.

(** C10, as stated, fails: a negative [timeLeft] is truthy and does
    resynchronise the countdown (here from 3600 to -2). *)
Lemma negative_timeLeft_resyncs :
  let r := status_in_session "s1" (Some (-1500)%Z) in
  ¬ (0 < default 0 (statusTimeLeft r))%Z
  ∧ timeLeft (st m_open) = 3600%Z
  ∧ timeLeft (st (checkSession_resume "s1" (Some r) m_open)) = (-2)%Z.
Proof. cbv zeta. split; [simpl; lia|]. split; vm_compute; reflexivity. Qed.

(** ** Broker errors *)

(** C6.  On the error type [unavailable-id] the handler registers again
    under an id built from a newly drawn token (a different token gives a
    different id) and leaves the [error] state alone; on every other error
    type it sets the connection error and does nothing else: no new
    registration, the store, the log and the timers are untouched. *)
Theorem registration_error_handling (cl : Closure) (m : Machine) :
  (∀ randomSuffix,
     let m' := peer_on_error cl "unavailable-id" randomSuffix m in
     error (st m') = error (st m)
     ∧ peers (w m') = peers (w m) ++ [mkPeer (myPeerId cl randomSuffix) 0 0]
     ∧ log (w m') = log (w m) ++ [OpRegister (myPeerId cl randomSuffix)]
     ∧ peer (st m') = Some (length (peers (w m)))
     ∧ (∀ old, old ≠ randomSuffix → myPeerId cl randomSuffix ≠ myPeerId cl old))
  ∧ (∀ etype randomSuffix, etype ≠ "unavailable-id" →
     let m' := peer_on_error cl etype randomSuffix m in
     error (st m') = Some ("Connection error: " +:+ etype)
     ∧ w m' = w m
     ∧ m' = setError (Some ("Connection error: " +:+ etype)) m).
Proof.
  split.
  - intros r m'. subst m'. unfold peer_on_error. simpl.
    repeat split. intros old Hne Heq. apply myPeerId_inj in Heq. congruence.
  - intros etype r Hne m'. subst m'. unfold peer_on_error.
    apply String.eqb_neq in Hne. rewrite Hne. done.
Qed.

Lemma registration_error_handling_witness :
  "network" ≠ "unavailable-id"
  ∧ error (st (peer_on_error cl0 "network" "k2" m_open))
    = Some ("Connection error: " +:+ "network")
  ∧ w (peer_on_error cl0 "network" "k2" m_open) = w m_open.
Proof.
  assert (Hne : "network" ≠ "unavailable-id") by discriminate.
  split; [exact Hne|].
  destruct (registration_error_handling cl0 m_open) as [_ H].
  destruct (H "network" "k2" Hne) as (H1 & H2 & _).
  split; [exact H1|exact H2].
Defined.

(** ** Media teardown *)

Lemma cleanupMedia_log (snap : PageState) (m : Machine) :
  log (w (cleanupMedia snap m))
  = log (w m)
    ++ match currentCall snap with Some c => [OpClose c] | None => [] end
    ++ match peer snap with Some p => [OpDestroy p] | None => [] end.
Proof.
  unfold cleanupMedia.
  destruct (localStream snap), (currentCall snap), (peer snap); simpl;
    rewrite <- ?app_assoc, ?app_nil_r; reflexivity.
Qed.


Lemma cleanupMedia_streams (snap : PageState) (m : Machine) :
  streams (w (cleanupMedia snap m))
  = match localStream snap with
    | Some s => alter stop_all s (streams (w m))
    | None => streams (w m)
    end.
Proof.
  unfold cleanupMedia.
  by destruct (localStream snap), (currentCall snap), (peer snap).
Qed.




Lemma cleanupMedia_timers (snap : PageState) (m : Machine) :
  countdown (w (cleanupMedia snap m)) = countdown (w m)
  ∧ timeLeft (st (cleanupMedia snap m)) = timeLeft (st m)
  ∧ sessionInterval (w (cleanupMedia snap m)) = sessionInterval (w m)
  ∧ sessionReqs (w (cleanupMedia snap m)) = sessionReqs (w m)
  ∧ pollTimers (w (cleanupMedia snap m)) = pollTimers (w m)
  ∧ connectReqs (w (cleanupMedia snap m)) = connectReqs (w m).
Proof.
  unfold cleanupMedia.
  by destruct (localStream snap), (currentCall snap), (peer snap).
Qed.

(** ** The countdown *)






Arguments cleanupMedia : simpl never.








(** The run of the example: the camera tracks end stopped once, the log
    ends with the one navigation to the chat page of the same session. *)
Example countdown_from_ten_run :
  let m := run cl0 (ticks 10) m_seeded in
  streams (w m) = [[mkTrack Audio true 1; mkTrack Video true 1]]
  ∧ pushes m = [OpPush "/chat/s1"]
  ∧ pushes (run cl0 (ticks 25) m_seeded) = [OpPush "/chat/s1"]
  ∧ pushes (run cl0 (ticks 9) m_seeded) = [].
Proof. vm_compute. repeat split. Qed.

(** After both call attempts were accepted the page holds the second
    stream and the second call only: expiry tears those down and leaves the
    first stream live and the first call open. *)
Example expiry_after_the_race :
  let m := run cl0 (ECheckResp (Some (status_in_session "s1" (Some 10000%Z)))
                      :: ticks 10) (run cl0 race m_open) in
  streams (w m) = [cam; [mkTrack Audio true 1; mkTrack Video true 1]]
  ∧ map ccloses (calls (w m)) = [0; 1]
  ∧ pushes m = [OpPush "/chat/s1"].
Proof. vm_compute. repeat split. Qed.

(** ** Call failure *)




(** ** Teardown, repeated *)

(** Teardown called again from the next render finds the state variables
    cleared and leaves page state, tracks, media connections and video
    elements as the first call left them. *)
Lemma cleanup_successive_renders (m : Machine) :
  let m1 := cleanupMedia (st m) m in
  let m2 := cleanupMedia (st m1) m1 in
  st m2 = st m1 ∧ streams (w m2) = streams (w m1) ∧ calls (w m2) = calls (w m1)
  ∧ localVideo (w m2) = localVideo (w m1) ∧ remoteVideo (w m2) = remoteVideo (w m1).
Proof.
  destruct m as [s x]. destruct s as [tl er cs pe cc ls mu vo pp rm rv].
  destruct x as [ss cl ps lv rv' lg pt cr si sr cd].
  unfold cleanupMedia. simpl.
  destruct ls, cc, pe, lv, rv'; simpl; done.
Qed.

(** C8 fails on the code.  Leaving the page runs the teardown of the first
    run of the effect, which holds no stream: the camera tracks are never
    stopped, however often it is called.  The teardown of a run that holds
    the stream stops its tracks at every call: an error followed by a close
    stops each track twice. *)
Theorem teardown_misses_or_repeats :
  (localStream (st m_open) = Some 0
   ∧ streams (w (unmount cl0 m_open)) = [cam]
   ∧ streams (w (unmount cl0 (unmount cl0 m_open))) = [cam])
  ∧ (streams (w m_answered) = [cam; cam]
     ∧ streams (w (step cl1 ECallClose (step cl1 ECallError m_answered)))
       = [[mkTrack Audio true 2; mkTrack Video true 2]; cam]).
Proof. vm_compute. repeat split. Qed.

(** The general fact behind both: teardown stops the tracks of the stream
    its closure holds, at every call, and no other. *)
Lemma cleanupMedia_twice_same_closure (snap : PageState) (m : Machine) (s : nat) :
  localStream snap = Some s →
  streams (w (cleanupMedia snap (cleanupMedia snap m))) !! s
  = (fun ts => stop_all (stop_all ts)) <$> streams (w m) !! s.
Proof.
  intros Hs. rewrite !cleanupMedia_streams, Hs.
  rewrite !list_lookup_alter_eq. by destruct (streams (w m) !! s).
Qed.

(** ** The race of the two call attempts *)

(** The inbound guard reads the [currentCall] of the closure: a handler
    whose closure holds no call answers, whatever call the page has now. *)
Lemma offer_answered_by_stale_guard (cl : Closure) (remote : string)
    (ts : list Track) (m : Machine) :
  currentCall (csnap cl) = None → localStream (csnap cl) = None →
  let m' := handle cl (EOffer remote (Some ts)) m in
  calls (w m') = calls (w m) ++ [mkCall remote (Some (length (streams (w m)))) 0]
  ∧ currentCall (st m') = Some (length (calls (w m)))
  ∧ log (w m') = log (w m) ++ [OpAnswer (length (calls (w m))) (length (streams (w m)))].
Proof.
  intros Hc Hs m'. subst m'. unfold handle, peer_on_call. rewrite Hs, Hc. simpl.
  split; [|done].
  replace (length (calls (w m))) with (length (calls (w m)) + 0) at 1 by lia.
  rewrite alter_app_r. reflexivity.
Qed.

(** The outbound guard reads the same constant: the discovery poll of such
    a closure places its call whatever call the page has now. *)
Lemma outbound_placed_by_stale_guard (cl : Closure) (p s : nat) (r : Status)
    (remote : JsValue) (m : Machine) :
  currentCall (csnap cl) = None → partner_peer r = Some remote →
  let m' := attemptConnection_resume cl p s (Some r) m in
  calls (w m') = calls (w m) ++ [mkCall remote (Some s) 0]
  ∧ currentCall (st m') = Some (length (calls (w m)))
  ∧ log (w m') = log (w m) ++ [OpCall p remote s].
Proof.
  intros Hc Hr m'. subst m'. unfold attemptConnection_resume.
  by rewrite Hr, Hc.
Qed.

(** The guard does hold back a handler whose closure holds a call. *)
Lemma offer_ignored_by_closure_with_call (cl : Closure) (remote : string)
    (gum : option (list Track)) (m : Machine) (c s : nat) :
  currentCall (csnap cl) = Some c → localStream (csnap cl) = Some s →
  handle cl (EOffer remote gum) m
  = with_calls (fun l => l ++ [mkCall remote None 0]) m.
Proof.
  intros Hc Hs. unfold handle, peer_on_call. by rewrite Hs, Hc.
Qed.

(** C1 fails on the code.  The page has placed its outbound call (the page
    state holds call 0) when the partner's offer arrives; the handler of the
    first run of the effect still reads [currentCall] as null and answers:
    two media connections are accepted and open. *)
Theorem race_accepts_two_calls :
  currentCall (csnap cl0) = None
  ∧ currentCall (st (run cl0 [EPollResp (Some (status_partner "s1"))] m_open)) = Some 0
  ∧ calls (w (run cl0 race m_open))
    = [mkCall "s1-bob-k2" (Some 0) 0; mkCall "s1-bob-k2" (Some 1) 0]
  ∧ accepted_calls (run cl0 race m_open) = 2
  ∧ broker_ops (run cl0 race m_open)
    = [OpRegister "s1-alice-k1"; OpCall 0 "s1-bob-k2" 0; OpAnswer 1 1].
Proof. vm_compute. repeat split. Qed.

(** ** Leaving the page *)

Lemma handle_sessionInterval (cl : Closure) (e : Event) (m : Machine) :
  sessionInterval (w (handle cl e m)) = sessionInterval (w m).
Proof.
  destruct e; unfold handle.
  - unfold peer_on_open. destruct gum, published; reflexivity.
  - destruct (pollTimers (w m)) as [|[p s] rest]; reflexivity.
  - destruct (connectReqs (w m)) as [|[p s] rest]; [reflexivity|].
    unfold attemptConnection_resume. destruct resp as [r|]; [|reflexivity].
    destruct (partner_peer r); [|reflexivity].
    destruct (currentCall (csnap cl)); reflexivity.
  - unfold peer_on_call.
    destruct (localStream (csnap cl)), gum, (currentCall (csnap cl)); reflexivity.
  - unfold peer_on_error. destruct (String.eqb etype "unavailable-id"); reflexivity.
  - reflexivity.
  - unfold call_on_error.
    by destruct (cleanupMedia_timers (csnap cl)
                   (setError (Some "Call connection failed") m)) as (_ & _ & -> & _).
  - unfold call_on_close.
    by destruct (cleanupMedia_timers (csnap cl)
                   (setConnectionStatus "Call ended" m)) as (_ & _ & -> & _).
  - destruct (sessionInterval (w m)) eqn:E; [exact E|exact E].
  - destruct (sessionReqs (w m)) as [|n]; [reflexivity|].
    unfold checkSession_resume. destruct resp as [r|]; [|reflexivity].
    destruct (negb _ || negb _); [reflexivity|].
    destruct (truthy_num _); reflexivity.
  - unfold countdown_fires. destruct (countdown (w m)); reflexivity.
  - unfold click_toggleMute, toggleMute. destruct (localStream (st m)); reflexivity.
  - unfold click_toggleVideo, toggleVideo. destruct (localStream (st m)); reflexivity.
Qed.

Lemma handle_countdown_none (cl : Closure) (e : Event) (m : Machine) :
  countdown (w m) = None → countdown (w (handle cl e m)) = None.
Proof.
  intros H. destruct e; unfold handle.
  - unfold peer_on_open. destruct gum, published; exact H.
  - destruct (pollTimers (w m)) as [|[p s] rest]; exact H.
  - destruct (connectReqs (w m)) as [|[p s] rest]; [exact H|].
    unfold attemptConnection_resume. destruct resp as [r|]; [|exact H].
    destruct (partner_peer r); [|exact H].
    destruct (currentCall (csnap cl)); exact H.
  - unfold peer_on_call.
    destruct (localStream (csnap cl)), gum, (currentCall (csnap cl)); exact H.
  - unfold peer_on_error. destruct (String.eqb etype "unavailable-id"); exact H.
  - exact H.
  - unfold call_on_error.
    by destruct (cleanupMedia_timers (csnap cl)
                   (setError (Some "Call connection failed") m)) as (-> & _).
  - unfold call_on_close.
    by destruct (cleanupMedia_timers (csnap cl)
                   (setConnectionStatus "Call ended" m)) as (-> & _).
  - destruct (sessionInterval (w m)); exact H.
  - destruct (sessionReqs (w m)) as [|n]; [exact H|].
    unfold checkSession_resume. destruct resp as [r|]; [|exact H].
    destruct (negb _ || negb _); [exact H|].
    destruct (truthy_num _); exact H.
  - unfold countdown_fires. by rewrite H.
  - unfold click_toggleMute, toggleMute. destruct (localStream (st m)); exact H.
  - unfold click_toggleVideo, toggleVideo. destruct (localStream (st m)); exact H.
Qed.

Lemma run_detached_timers (cl : Closure) (es : list Event) :
  ∀ m, sessionInterval (w m) = false → countdown (w m) = None →
       sessionInterval (w (run_detached cl es m)) = false
       ∧ countdown (w (run_detached cl es m)) = None.
Proof.
  induction es as [|e es IH]; intros m Hi Hc; [done|].
  apply IH.
  - by rewrite handle_sessionInterval.
  - by apply handle_countdown_none.
Qed.

Lemma unmount_timers (cl : Closure) (m : Machine) :
  sessionInterval (w (unmount cl m)) = false
  ∧ countdown (w (unmount cl m)) = None
  ∧ sessionReqs (w (unmount cl m)) = sessionReqs (w m)
  ∧ pollTimers (w (unmount cl m)) = pollTimers (w m)
  ∧ connectReqs (w (unmount cl m)) = connectReqs (w m).
Proof.
  unfold unmount, timer_effect_cleanup, session_effect_cleanup, peer_effect_cleanup.
  destruct (cleanupMedia_timers (csnap cl) m) as (_ & _ & _ & H1 & H2 & H3).
  repeat split; simpl; done.
Qed.

(** C3, as the code has it.  Leaving the page clears the 5-second session
    interval and the pending countdown timeout at once, and whatever events
    still arrive afterwards neither is armed again: the interval starts no
    further session check and the countdown never fires.  A session check
    that was awaiting its response when the page left is not cancelled: it
    is still pending, and when the response arrives the rest of
    [checkSession] runs as it would have on the living page. *)
Theorem teardown_cancels_timers (cl : Closure) (m : Machine) (es : list Event) :
  let m' := unmount cl m in
  let mk := run_detached cl es m' in
  sessionInterval (w m') = false ∧ countdown (w m') = None
  ∧ sessionInterval (w mk) = false ∧ countdown (w mk) = None
  ∧ handle cl ECheckFire mk = mk ∧ handle cl ETick mk = mk
  ∧ sessionReqs (w m') = sessionReqs (w m)
  ∧ (∀ n resp, sessionReqs (w m) = S n →
       handle cl (ECheckResp resp) m'
       = checkSession_resume (csid cl) resp (set_sessionReqs n m')).
Proof.
  intros m' mk.
  destruct (unmount_timers cl m) as (Hi & Hc & Hr & _).
  destruct (run_detached_timers cl es m' Hi Hc) as [Hi' Hc'].
  fold mk in Hi', Hc'.
  split; [exact Hi|]. split; [exact Hc|].
  split; [exact Hi'|]. split; [exact Hc'|].
  split; [unfold handle; by rewrite Hi'|].
  split; [unfold handle, countdown_fires; by rewrite Hc'|].
  split; [exact Hr|].
  intros n resp Hn. unfold handle. fold m'. subst m'. by rewrite Hr, Hn.
Qed.

(** C3, as stated, fails: the session check in flight when the page is
    left still acts on its response, here with a [router.push("/")]. *)
Lemma pending_check_acts_after_unmount :
  sessionReqs (w m_open) = 1
  ∧ log (w (unmount cl0 m_open))
    = [OpRegister "s1-alice-k1"; OpUpdatePeerId "s1" (Some "s1-alice-k1");
       OpUpdatePeerId "s1" None]
  ∧ log (w (run_detached cl0 [ECheckResp (Some status_idle)] (unmount cl0 m_open)))
    = log (w (unmount cl0 m_open)) ++ [OpPush "/"].
Proof. vm_compute. repeat split. Qed.

(** The 1-second discovery poll has no handle to clear: leaving the page
    keeps its timeouts and its requests in flight; a response without a
    partner arms the next timeout, a response with one places a call. *)
Lemma discovery_poll_survives_unmount (cl : Closure) (m : Machine) :
  pollTimers (w (unmount cl m)) = pollTimers (w m)
  ∧ connectReqs (w (unmount cl m)) = connectReqs (w m).
Proof. by destruct (unmount_timers cl m) as (_ & _ & _ & H1 & H2). Qed.

Example discovery_poll_after_unmount :
  let gone := unmount cl0 m_open in
  connectReqs (w gone) = [(0, 0)]
  ∧ pollTimers (w (run_detached cl0
       [EPollResp (Some (status_in_session "s1" None))] gone)) = [(0, 0)]
  ∧ connectReqs (w (run_detached cl0
       [EPollResp (Some (status_in_session "s1" None)); EPollFire] gone)) = [(0, 0)]
  ∧ log (w (run_detached cl0 [EPollResp (Some (status_partner "s1"))] gone))
    = log (w gone) ++ [OpCall 0 "s1-bob-k2" 0].
Proof. vm_compute. repeat split. Qed.

Lemma teardown_cancels_timers_witness :
  sessionReqs (w m_open) = 1
  ∧ sessionInterval (w (unmount cl0 m_open)) = false
  ∧ handle cl0 (ECheckResp (Some status_idle)) (unmount cl0 m_open)
    = checkSession_resume (csid cl0) (Some status_idle)
        (set_sessionReqs 0 (unmount cl0 m_open)).
Proof.
  assert (H : sessionReqs (w m_open) = 1) by (vm_compute; reflexivity).
  split; [exact H|].
  destruct (teardown_cancels_timers cl0 m_open [])
    as (H1 & _ & _ & _ & _ & _ & _ & H2).
  split; [exact H1|exact (H2 0 (Some status_idle) H)].
Defined.

(** * Further properties of the call page *)

(** ** The countdown over arbitrary events *)

Lemma handle_countdown (cl : Closure) (e : Event) (m : Machine) :
  e ≠ ETick → countdown (w (handle cl e m)) = countdown (w m).
Proof.
  intros Hne. destruct e; unfold handle; try done.
  - unfold peer_on_open. destruct gum, published; reflexivity.
  - destruct (pollTimers (w m)) as [|[p s] rest]; reflexivity.
  - destruct (connectReqs (w m)) as [|[p s] rest]; [reflexivity|].
    unfold attemptConnection_resume. destruct resp as [r|]; [|reflexivity].
    destruct (partner_peer r); [|reflexivity].
    destruct (currentCall (csnap cl)); reflexivity.
  - unfold peer_on_call.
    destruct (localStream (csnap cl)), gum, (currentCall (csnap cl)); reflexivity.
  - unfold peer_on_error. destruct (String.eqb etype "unavailable-id"); reflexivity.
  - unfold call_on_error.
    by destruct (cleanupMedia_timers (csnap cl)
                   (setError (Some "Call connection failed") m)) as (-> & _).
  - unfold call_on_close.
    by destruct (cleanupMedia_timers (csnap cl)
                   (setConnectionStatus "Call ended" m)) as (-> & _).
  - destruct (sessionInterval (w m)); reflexivity.
  - destruct (sessionReqs (w m)) as [|n]; [reflexivity|].
    unfold checkSession_resume. destruct resp as [r|]; [|reflexivity].
    destruct (negb _ || negb _); [reflexivity|].
    destruct (truthy_num _); reflexivity.
  - unfold click_toggleMute, toggleMute. destruct (localStream (st m)); reflexivity.
  - unfold click_toggleVideo, toggleVideo. destruct (localStream (st m)); reflexivity.
Qed.

Lemma handle_timeLeft (cl : Closure) (e : Event) (m : Machine) :
  e ≠ ETick → (∀ resp, e ≠ ECheckResp resp) →
  timeLeft (st (handle cl e m)) = timeLeft (st m).
Proof.
  intros Hne Hne'. destruct e; unfold handle; try done.
  - unfold peer_on_open. destruct gum, published; reflexivity.
  - destruct (pollTimers (w m)) as [|[p s] rest]; reflexivity.
  - destruct (connectReqs (w m)) as [|[p s] rest]; [reflexivity|].
    unfold attemptConnection_resume. destruct resp as [r|]; [|reflexivity].
    destruct (partner_peer r); [|reflexivity].
    destruct (currentCall (csnap cl)); reflexivity.
  - unfold peer_on_call.
    destruct (localStream (csnap cl)), gum, (currentCall (csnap cl)); reflexivity.
  - unfold peer_on_error. destruct (String.eqb etype "unavailable-id"); reflexivity.
  - unfold call_on_error.
    by destruct (cleanupMedia_timers (csnap cl)
                   (setError (Some "Call connection failed") m)) as (_ & -> & _).
  - unfold call_on_close.
    by destruct (cleanupMedia_timers (csnap cl)
                   (setConnectionStatus "Call ended" m)) as (_ & -> & _).
  - destruct (sessionInterval (w m)); reflexivity.
  - by specialize (Hne' resp).
  - unfold click_toggleMute, toggleMute. destruct (localStream (st m)); reflexivity.
  - unfold click_toggleVideo, toggleVideo. destruct (localStream (st m)); reflexivity.
Qed.

Lemma render_timer_inv (prev : Z) (sid : string) (m : Machine) :
  (timeLeft (st m) = prev → timer_inv m) → timer_inv (render prev sid m).
Proof.
  intros H. unfold render.
  destruct (Z.eqb_spec (timeLeft (st m)) prev) as [E|_]; [by apply H|].
  unfold timer_inv, timer_effect, timer_effect_cleanup.
  change (timeLeft (st (set_countdown None m))) with (timeLeft (st m)).
  destruct (Z.leb_spec (timeLeft (st m)) 0) as [Hle|Hgt].
  - change (countdown (w (emit ?o ?x))) with (countdown (w x)).
    change (timeLeft (st (emit ?o ?x))) with (timeLeft (st x)).
    destruct (cleanupMedia_timers (st m) (set_countdown None m)) as (-> & -> & _).
    simpl. by destruct (Z.leb_spec (timeLeft (st m)) 0); [|lia].
  - simpl. by destruct (Z.leb_spec (timeLeft (st m)) 0); [lia|].
Qed.

(** X1.  The countdown timeout is armed exactly while [timeLeft] is
    positive and it carries the current [timeLeft]: this holds when the
    page is mounted and after every event, in any order. *)
Theorem timer_inv_run (cl : Closure) (es : list Event) (m : Machine) :
  timer_inv m → timer_inv (run cl es m).
Proof.
  revert m. induction es as [|e es IH]; intros m Hinv; [done|].
  apply IH. unfold step. apply render_timer_inv. intros Heq.
  unfold timer_inv. rewrite Heq.
  assert (He : e = ETick ∨ e ≠ ETick)
    by (destruct e; (by left) || (by right)).
  destruct He as [->|Hne].
  - unfold handle, countdown_fires in *. unfold timer_inv in Hinv.
    destruct (countdown (w m)) as [t|] eqn:Hc; [|by rewrite Hc in *].
    exfalso. simpl in Heq.
    destruct (Z.leb_spec (timeLeft (st m)) 0); [done|]. injection Hinv as ->. lia.
  - rewrite handle_countdown by done. exact Hinv.
Qed.

Lemma timer_inv_mount (sid uid randomSuffix : string) :
  timer_inv (mount sid uid randomSuffix).
Proof. reflexivity. Qed.

Lemma timer_inv_run_witness :
  timer_inv (mount "s1" "alice" "k1")
  ∧ timer_inv (run cl0 (EOpen 0 (Some cam) true :: override_run)
                 (mount "s1" "alice" "k1")).
Proof.
  split; [apply timer_inv_mount|].
  apply (timer_inv_run cl0 (EOpen 0 (Some cam) true :: override_run)
           (mount "s1" "alice" "k1")).
  apply timer_inv_mount.
Defined.





(** ** Where the page navigates *)

Lemma cleanupMedia_log_routes (cl : Closure) (snap : PageState) (m : Machine) :
  ∃ l, log (w (cleanupMedia snap m)) = log (w m) ++ l ∧ Forall (page_route cl) l.
Proof.
  rewrite cleanupMedia_log. eexists. split; [reflexivity|].
  destruct (currentCall snap), (peer snap); repeat constructor.
Qed.

Ltac log_grows :=
  first
    [ by (exists []; rewrite app_nil_r)
    | eexists; split;
      [ simpl; rewrite <- ?app_assoc; reflexivity
      | repeat constructor; simpl; auto ] ].

Lemma handle_log_routes (cl : Closure) (e : Event) (m : Machine) :
  ∃ l, log (w (handle cl e m)) = log (w m) ++ l ∧ Forall (page_route cl) l.
Proof.
  destruct e; unfold handle.
  - unfold peer_on_open. destruct gum, published; log_grows.
  - destruct (pollTimers (w m)) as [|[p s] rest]; log_grows.
  - destruct (connectReqs (w m)) as [|[p s] rest]; [log_grows|].
    unfold attemptConnection_resume. destruct resp as [r|]; [|log_grows].
    destruct (partner_peer r); [|log_grows].
    destruct (currentCall (csnap cl)); log_grows.
  - unfold peer_on_call.
    destruct (localStream (csnap cl)), gum, (currentCall (csnap cl)); log_grows.
  - unfold peer_on_error. destruct (String.eqb etype "unavailable-id"); log_grows.
  - log_grows.
  - unfold call_on_error.
    apply (cleanupMedia_log_routes cl (csnap cl)
             (setError (Some "Call connection failed") m)).
  - unfold call_on_close.
    apply (cleanupMedia_log_routes cl (csnap cl)
             (setConnectionStatus "Call ended" m)).
  - destruct (sessionInterval (w m)); log_grows.
  - destruct (sessionReqs (w m)) as [|n]; [log_grows|].
    unfold checkSession_resume. destruct resp as [r|]; [|log_grows].
    destruct (negb _ || negb _); [log_grows|].
    destruct (truthy_num _); log_grows.
  - unfold countdown_fires. destruct (countdown (w m)); log_grows.
  - unfold click_toggleMute, toggleMute. destruct (localStream (st m)); log_grows.
  - unfold click_toggleVideo, toggleVideo. destruct (localStream (st m)); log_grows.
Qed.

Lemma render_log_routes (cl : Closure) (prev : Z) (m : Machine) :
  ∃ l, log (w (render prev (csid cl) m)) = log (w m) ++ l ∧ Forall (page_route cl) l.
Proof.
  unfold render. destruct (timeLeft (st m) =? prev)%Z; [log_grows|].
  unfold timer_effect, timer_effect_cleanup.
  destruct (timeLeft (st m) <=? 0)%Z; [|log_grows].
  destruct (cleanupMedia_log_routes cl (st m) (set_countdown None m)) as (l & Hl & HF).
  exists (l ++ [OpPush ("/chat/" +:+ csid cl)]). split.
  - change (log (w (emit ?o ?x))) with (log (w x) ++ [o]).
    rewrite Hl. by rewrite <- app_assoc.
  - apply Forall_app. split; [exact HF|].
    apply Forall_cons. split; [by right|constructor].
Qed.

Lemma step_log_routes (cl : Closure) (e : Event) (m : Machine) :
  ∃ l, log (w (step cl e m)) = log (w m) ++ l ∧ Forall (page_route cl) l.
Proof.
  unfold step.
  destruct (render_log_routes cl (timeLeft (st m)) (handle cl e m)) as (l2 & H2 & F2).
  destruct (handle_log_routes cl e m) as (l1 & H1 & F1).
  exists (l1 ++ l2). split.
  - by rewrite H2, H1, <- app_assoc.
  - apply Forall_app. by split.
Qed.

(** X4.  Whatever events arrive, the calls the page has made so far stay
    in the log in their order, and every route the call page pushes is
    ["/"] or ["/chat/" + sessionId]: it navigates nowhere else. *)
Theorem navigation_targets (cl : Closure) (es : list Event) (m : Machine) :
  ∃ l, log (w (run cl es m)) = log (w m) ++ l ∧ Forall (page_route cl) l.
Proof.
  revert m. induction es as [|e es IH]; intros m; [log_grows|].
  destruct (step_log_routes cl e m) as (l1 & H1 & F1).
  destruct (IH (step cl e m)) as (l2 & H2 & F2).
  exists (l1 ++ l2). split.
  - change (run cl (e :: es) m) with (run cl es (step cl e m)).
    by rewrite H2, H1, <- app_assoc.
  - apply Forall_app. by split.
Qed.

(** ** Errors stay *)

Lemma cleanupMedia_error (snap : PageState) (m : Machine) :
  error (st (cleanupMedia snap m)) = error (st m)
  ∧ connectionStatus (st (cleanupMedia snap m)) = connectionStatus (st m).
Proof.
  unfold cleanupMedia.
  by destruct (localStream snap), (currentCall snap), (peer snap).
Qed.

Lemma handle_error_stays (cl : Closure) (e : Event) (m : Machine) :
  truthy_str (error (st m)) = true → truthy_str (error (st (handle cl e m))) = true.
Proof.
  intros H. destruct e; unfold handle.
  - unfold peer_on_open. destruct gum, published; done.
  - destruct (pollTimers (w m)) as [|[p s] rest]; done.
  - destruct (connectReqs (w m)) as [|[p s] rest]; [done|].
    unfold attemptConnection_resume. destruct resp as [r|]; [|done].
    destruct (partner_peer r); [|done].
    destruct (currentCall (csnap cl)); done.
  - unfold peer_on_call.
    destruct (localStream (csnap cl)), gum, (currentCall (csnap cl)); done.
  - unfold peer_on_error. destruct (String.eqb etype "unavailable-id"); done.
  - done.
  - unfold call_on_error.
    by destruct (cleanupMedia_error (csnap cl)
                   (setError (Some "Call connection failed") m)) as [-> _].
  - unfold call_on_close.
    by destruct (cleanupMedia_error (csnap cl)
                   (setConnectionStatus "Call ended" m)) as [-> _].
  - destruct (sessionInterval (w m)); done.
  - destruct (sessionReqs (w m)) as [|n]; [done|].
    unfold checkSession_resume. destruct resp as [r|]; [|done].
    destruct (negb _ || negb _); [done|].
    destruct (truthy_num _); done.
  - unfold countdown_fires. destruct (countdown (w m)); done.
  - unfold click_toggleMute, toggleMute. destruct (localStream (st m)); done.
  - unfold click_toggleVideo, toggleVideo. destruct (localStream (st m)); done.
Qed.

Lemma render_error (prev : Z) (sid : string) (m : Machine) :
  error (st (render prev sid m)) = error (st m).
Proof.
  unfold render. destruct (timeLeft (st m) =? prev)%Z; [done|].
  unfold timer_effect, timer_effect_cleanup.
  destruct (timeLeft (st m) <=? 0)%Z; [|done].
  change (error (st (emit ?o ?x))) with (error (st x)).
  by destruct (cleanupMedia_error (st m) (set_countdown None m)) as [-> _].
Qed.

(** X5.  No handler of the call page clears the error: once an error text
    is set, every later state has an error text, and the status badge
    ([error || connectionStatus]) shows that text, never the connection
    status. *)
Theorem error_is_sticky (cl : Closure) (es : list Event) (m : Machine) :
  truthy_str (error (st m)) = true →
  truthy_str (error (st (run cl es m))) = true
  ∧ Some (statusBadge (st (run cl es m))) = error (st (run cl es m)).
Proof.
  intros H.
  assert (Hrun : truthy_str (error (st (run cl es m))) = true).
  { revert m H. induction es as [|e es IH]; intros m H; [done|].
    apply IH. unfold step. rewrite render_error. by apply handle_error_stays. }
  split; [exact Hrun|].
  unfold statusBadge. rewrite Hrun.
  destruct (error (st (run cl es m))); done.
Qed.

Lemma error_is_sticky_witness :
  truthy_str (error (st (step cl0 ECallError m_open))) = true
  ∧ statusBadge (st (run cl0 [ECallClose; EDisconnected 0] (step cl0 ECallError m_open)))
    = "Call connection failed".
Proof.
  assert (H : truthy_str (error (st (step cl0 ECallError m_open))) = true)
    by (vm_compute; reflexivity).
  split; [exact H|].
  destruct (error_is_sticky cl0 [ECallClose; EDisconnected 0]
              (step cl0 ECallError m_open) H) as [_ Hb].
  assert (He : error (st (run cl0 [ECallClose; EDisconnected 0]
                            (step cl0 ECallError m_open)))
               = Some "Call connection failed") by (vm_compute; reflexivity).
  rewrite He in Hb. congruence.
Defined.

(** ** The discovery polls *)

Lemma handle_polls (cl : Closure) (e : Event) (m : Machine) :
  pending_polls (handle cl e m)
  ≤ pending_polls m + (if is_open e then 1 else 0).
Proof.
  unfold pending_polls. destruct e; unfold handle; simpl.
  - unfold peer_on_open. destruct gum, published; simpl;
      rewrite ?length_app; simpl; lia.
  - destruct (pollTimers (w m)) as [|[p s] rest] eqn:E; simpl;
      rewrite ?E, ?length_app; simpl; lia.
  - destruct (connectReqs (w m)) as [|[p s] rest] eqn:E; simpl;
      [rewrite E; simpl; lia|].
    unfold attemptConnection_resume. destruct resp as [r|]; simpl; [|lia].
    destruct (partner_peer r); simpl; [|rewrite length_app; simpl; lia].
    destruct (currentCall (csnap cl)); simpl; lia.
  - unfold peer_on_call.
    destruct (localStream (csnap cl)), gum, (currentCall (csnap cl)); simpl; lia.
  - unfold peer_on_error. destruct (String.eqb etype "unavailable-id"); simpl; lia.
  - lia.
  - unfold call_on_error.
    destruct (cleanupMedia_timers (csnap cl)
                (setError (Some "Call connection failed") m))
      as (_ & _ & _ & _ & -> & ->). simpl. lia.
  - unfold call_on_close.
    destruct (cleanupMedia_timers (csnap cl)
                (setConnectionStatus "Call ended" m))
      as (_ & _ & _ & _ & -> & ->). simpl. lia.
  - destruct (sessionInterval (w m)); simpl; lia.
  - destruct (sessionReqs (w m)) as [|n]; [lia|].
    unfold checkSession_resume. destruct resp as [r|]; simpl; [|lia].
    destruct (negb _ || negb _); simpl; [lia|].
    destruct (truthy_num _); simpl; lia.
  - unfold countdown_fires. destruct (countdown (w m)); simpl; lia.
  - unfold click_toggleMute, toggleMute. destruct (localStream (st m)); simpl; lia.
  - unfold click_toggleVideo, toggleVideo. destruct (localStream (st m)); simpl; lia.
Qed.

Lemma render_polls (prev : Z) (sid : string) (m : Machine) :
  pending_polls (render prev sid m) = pending_polls m.
Proof.
  unfold pending_polls, render. destruct (timeLeft (st m) =? prev)%Z; [done|].
  unfold timer_effect, timer_effect_cleanup.
  destruct (timeLeft (st m) <=? 0)%Z; [|done].
  change (pollTimers (w (emit ?o ?x))) with (pollTimers (w x)).
  change (connectReqs (w (emit ?o ?x))) with (connectReqs (w x)).
  by destruct (cleanupMedia_timers (st m) (set_countdown None m))
    as (_ & _ & _ & _ & -> & ->).
Qed.

(** X6.  Discovery polls (armed timeouts plus status requests in flight)
    are started by ['open'] events only, one per event at most: after any
    run of events there are no more of them than there were before plus
    the number of ['open'] events in the run.  A poll re-arms itself, it
    never forks. *)
Theorem polls_bounded_by_opens (cl : Closure) (es : list Event) (m : Machine) :
  pending_polls (run cl es m) ≤ pending_polls m + opens es.
Proof.
  revert m. induction es as [|e es IH]; intros m.
  - simpl. unfold opens. simpl. lia.
  - change (run cl (e :: es) m) with (run cl es (step cl e m)).
    specialize (IH (step cl e m)).
    assert (Hs : pending_polls (step cl e m)
                 ≤ pending_polls m + (if is_open e then 1 else 0)).
    { unfold step. rewrite render_polls. apply handle_polls. }
    assert (Ho : opens (e :: es) = (if is_open e then 1 else 0) + opens es).
    { unfold opens. rewrite filter_cons. destruct (is_open e) eqn:E.
      - rewrite decide_True by done. reflexivity.
      - rewrite decide_False by done. reflexivity. }
    lia.
Qed.

(** What one discovery response does to the polls: a rejected request
    ends its poll, a response without a partner arms exactly one timeout,
    a response with the partner arms none. *)
Lemma poll_response_outcomes (cl : Closure) (p s : nat) (m : Machine) :
  attemptConnection_resume cl p s None m = m
  ∧ (∀ r, partner_peer r = None →
       attemptConnection_resume cl p s (Some r) m
       = with_pollTimers (fun l => l ++ [(p, s)]) m)
  ∧ (∀ r remote, partner_peer r = Some remote →
       pollTimers (w (attemptConnection_resume cl p s (Some r) m)) = pollTimers (w m)
       ∧ connectReqs (w (attemptConnection_resume cl p s (Some r) m))
         = connectReqs (w m)).
Proof.
  split; [done|]. split.
  - intros r Hr. unfold attemptConnection_resume. by rewrite Hr.
  - intros r remote Hr. unfold attemptConnection_resume. rewrite Hr.
    by destruct (currentCall (csnap cl)).
Qed.

Lemma partner_peer_spec (r : Status) (v : JsValue) :
  partner_peer r = Some v
  ↔ ∃ u ids, partnerId r = Some u ∧ u ≠ "" ∧ peerIds r = Some ids
             ∧ ((∃ a, ids !! u = Some a ∧ a ≠ "" ∧ v = JsString a)
                ∨ (ids !! u = None ∧ u ∈ object_prototype_members
                   ∧ v = JsMember u)).
Proof.
  unfold partner_peer, truthy_str, get_property. split.
  - destruct (partnerId r) as [u|]; [|done].
    destruct (String.eqb_spec u "") as [->|Hu]; simpl; [done|].
    destruct (peerIds r) as [ids|]; [|done].
    destruct (ids !! u) as [a|] eqn:Ha; simpl.
    + destruct (String.eqb_spec a "") as [->|Hne]; simpl; [done|].
      intros [= <-]. exists u, ids. repeat split; try done. left. by exists a.
    + case_bool_decide as Hin; simpl; [|done].
      intros [= <-]. exists u, ids. repeat split; try done. by right.
  - intros (u & ids & -> & Hu & -> & [(a & Ha & Hne & ->)|(Ha & Hin & ->)]).
    + destruct (String.eqb_spec u "") as [->|_]; [done|]. simpl.
      rewrite Ha. simpl. by destruct (String.eqb_spec a "") as [->|_].
    + destruct (String.eqb_spec u "") as [->|_]; [done|]. simpl.
      rewrite Ha. by rewrite bool_decide_eq_true_2.
Qed.

(** X7.  What a discovery response decides.  The partner counts as found
    exactly when the response names a non-empty partner id, carries a
    [peerIds] object, and the property read of that name on it gives
    something truthy: a non-empty entry of the object itself or, the object
    having no such entry, a member inherited from [Object.prototype] (a
    partner id such as [constructor]).  The poll arms its next timeout
    exactly when the partner is not found, and then does nothing else; when
    found, what was read is passed to [setPartnerPeerId], no timeout is
    armed and, the closure holding no call, the call is placed to it. *)
Theorem discovery_response_decides (cl : Closure) (p s : nat) (r : Status)
    (m : Machine) :
  let m' := attemptConnection_resume cl p s (Some r) m in
  (∀ v, partner_peer r = Some v
        ↔ ∃ u ids, partnerId r = Some u ∧ u ≠ "" ∧ peerIds r = Some ids
                   ∧ ((∃ a, ids !! u = Some a ∧ a ≠ "" ∧ v = JsString a)
                      ∨ (ids !! u = None ∧ u ∈ object_prototype_members
                         ∧ v = JsMember u)))
  ∧ (pollTimers (w m') = pollTimers (w m) ++ [(p, s)] ↔ partner_peer r = None)
  ∧ (partner_peer r = None → m' = with_pollTimers (fun l => l ++ [(p, s)]) m)
  ∧ (∀ v, partner_peer r = Some v →
       partnerPeerId (st m') = Some v
       ∧ pollTimers (w m') = pollTimers (w m)
       ∧ connectReqs (w m') = connectReqs (w m)
       ∧ (currentCall (csnap cl) = None →
            calls (w m') = calls (w m) ++ [mkCall v (Some s) 0]
            ∧ log (w m') = log (w m) ++ [OpCall p v s])
       ∧ (∀ c, currentCall (csnap cl) = Some c →
            calls (w m') = calls (w m) ∧ log (w m') = log (w m))).
Proof.
  intros m'. subst m'. split; [intros v; apply partner_peer_spec|].
  unfold attemptConnection_resume.
  destruct (partner_peer r) as [v|] eqn:Hv.
  - split; [|split; [done|]].
    + split; [|done]. intros H. exfalso.
      assert (Hl : pollTimers (w m) = pollTimers (w m) ++ [(p, s)])
        by (by destruct (currentCall (csnap cl))).
      apply (f_equal length) in Hl. rewrite length_app in Hl. simpl in Hl. lia.
    + intros v' [= <-].
      destruct (currentCall (csnap cl)) as [c|] eqn:Hc; simpl;
        repeat split; try done; try (by intros ? [=]).
  - split; [done|]. split; [done|]. intros v' [=].
Qed.

Lemma discovery_response_decides_witness :
  partner_peer (status_inherited "s1") = Some (JsMember "constructor")
  ∧ currentCall (csnap cl0) = None
  ∧ pollTimers (w (attemptConnection_resume cl0 0 0 (Some (status_inherited "s1")) m_open))
    = pollTimers (w m_open)
  ∧ log (w (attemptConnection_resume cl0 0 0 (Some (status_inherited "s1")) m_open))
    = log (w m_open) ++ [OpCall 0 (JsMember "constructor") 0].
Proof.
  assert (H : partner_peer (status_inherited "s1") = Some (JsMember "constructor"))
    by (vm_compute; reflexivity).
  split; [exact H|]. split; [reflexivity|].
  destruct (discovery_response_decides cl0 0 0 (status_inherited "s1") m_open)
    as (_ & _ & _ & Hf).
  destruct (Hf (JsMember "constructor") H) as (_ & H1 & _ & H2 & _).
  split; [exact H1|]. exact (proj2 (H2 eq_refl)).
Defined.

(** ** The ['open'] handler and the capture *)


(** X9.  The ['open'] handler starts the discovery poll only when the
    capture was granted and the peer id was stored: with the capture
    refused nothing is sent to the backend and no poll starts; with the
    store failing the id was sent, the partner error is set and no poll
    starts; otherwise exactly one status request is in flight more. *)
Theorem open_starts_poll_only_on_success (cl : Closure) (p : nat) (m : Machine) :
  (∀ published,
     let m' := peer_on_open cl p None published m in
     log (w m') = log (w m) ∧ pending_polls m' = pending_polls m
     ∧ error (st m') = Some "Failed to access camera/microphone"
     ∧ localStream (st m') = localStream (st m))
  ∧ (∀ ts,
       let m' := peer_on_open cl p (Some ts) false m in
       log (w m') = log (w m) ++ [OpUpdatePeerId (csid cl) (Some (peer_id p m))]
       ∧ pending_polls m' = pending_polls m
       ∧ error (st m') = Some "Failed to connect with partner")
  ∧ (∀ ts,
       let m' := peer_on_open cl p (Some ts) true m in
       log (w m') = log (w m) ++ [OpUpdatePeerId (csid cl) (Some (peer_id p m))]
       ∧ pending_polls m' = S (pending_polls m)
       ∧ connectReqs (w m') = connectReqs (w m) ++ [(p, length (streams (w m)))]
       ∧ error (st m') = error (st m)).
Proof.
  split; [|split].
  - intros published m'. subst m'. unfold pending_polls, peer_on_open. simpl. done.
  - intros ts m'. subst m'. unfold pending_polls, peer_on_open. simpl. done.
  - intros ts m'. subst m'. unfold pending_polls, peer_on_open. simpl.
    rewrite length_app. simpl. repeat split; lia.
Qed.

(** ** The toggles, track by track *)

Lemma flip_kind_commute (ts : list Track) :
  flip_kind Audio (flip_kind Video ts) = flip_kind Video (flip_kind Audio ts).
Proof.
  unfold flip_kind. rewrite !map_map. apply map_ext.
  intros [[] e n]; reflexivity.
Qed.

(** X10.  The two toggles do not interfere: muting then switching the
    camera gives the same page as switching the camera then muting. *)
Theorem toggles_commute (m : Machine) :
  click_toggleMute (click_toggleVideo m) = click_toggleVideo (click_toggleMute m).
Proof.
  destruct m as [s x]. unfold click_toggleMute, click_toggleVideo, toggleMute, toggleVideo.
  simpl. destruct (localStream s) as [i|] eqn:E; simpl; rewrite ?E; [|done].
  destruct s, x; simpl in *.
  unfold setIsMuted, setIsVideoOff, with_streams, upd_st, upd_w; simpl.
  do 2 f_equal. rewrite !list_alter_alter_eq. apply list_alter_ext; [|done].
  intros ts _. simpl. apply flip_kind_commute.
Qed.

Lemma flip_kind_tracks (k : TrackKind) (ts : list Track) :
  map kind (flip_kind k ts) = map kind ts
  ∧ map stops (flip_kind k ts) = map stops ts
  ∧ length (flip_kind k ts) = length ts
  ∧ (∀ i t, ts !! i = Some t →
       ∃ t', flip_kind k ts !! i = Some t'
             ∧ enabled t' = if kind_eqb (kind t) k then negb (enabled t) else enabled t).
Proof.
  unfold flip_kind. split; [|split; [|split]].
  - rewrite map_map. apply map_ext. intros t. by destruct (kind_eqb (kind t) k).
  - rewrite map_map. apply map_ext. intros t. by destruct (kind_eqb (kind t) k).
  - apply length_map.
  - intros i t Ht. change (map ?f ts) with (f <$> ts).
    rewrite list_lookup_fmap, Ht. simpl. eexists. split; [reflexivity|].
    by destruct (kind_eqb (kind t) k).
Qed.

(** X11.  One click on the mute button, with a local stream: every audio
    track of that stream has its [enabled] flag inverted, every video track
    keeps it; no track is stopped, added, removed or changes kind; other
    streams are untouched and [isMuted] is inverted. *)
Theorem mute_flips_audio_only (m : Machine) (s : nat) (ts : list Track) :
  localStream (st m) = Some s → streams (w m) !! s = Some ts →
  ∃ ts', streams (w (click_toggleMute m)) !! s = Some ts'
         ∧ map kind ts' = map kind ts
         ∧ map stops ts' = map stops ts
         ∧ (∀ i t, ts !! i = Some t →
              ∃ t', ts' !! i = Some t'
                    ∧ enabled t' = if is_audio t then negb (enabled t) else enabled t)
         ∧ (∀ j, j ≠ s → streams (w (click_toggleMute m)) !! j = streams (w m) !! j)
         ∧ isMuted (st (click_toggleMute m)) = negb (isMuted (st m)).
Proof.
  intros Hs Hts. exists (flip_kind Audio ts).
  destruct (mute_toggle_once m s ts Hs Hts) as [H1 H2].
  destruct (flip_kind_tracks Audio ts) as (K1 & K2 & _ & K4).
  split; [exact H1|]. split; [exact K1|]. split; [exact K2|].
  split; [exact K4|]. split; [|exact H2].
  intros j Hj. unfold click_toggleMute, toggleMute. rewrite Hs. simpl.
  by apply list_lookup_alter_ne.
Qed.

Lemma mute_flips_audio_only_witness :
  localStream (st m_open) = Some 0 ∧ streams (w m_open) !! 0 = Some cam
  ∧ ∃ ts', streams (w (click_toggleMute m_open)) !! 0 = Some ts'
           ∧ map stops ts' = map stops cam.
Proof.
  assert (H1 : localStream (st m_open) = Some 0) by (vm_compute; reflexivity).
  assert (H2 : streams (w m_open) !! 0 = Some cam) by (vm_compute; reflexivity).
  split; [exact H1|]. split; [exact H2|].
  destruct (mute_flips_audio_only m_open 0 cam H1 H2) as (ts' & Ha & _ & Hb & _).
  exists ts'. split; [exact Ha|exact Hb].
Defined.

(** ** Offers and teardown under the closure of the first run *)

(** X12.  An offer that reaches a handler whose run holds neither a stream
    nor a call captures the camera again: the call is answered with the new
    stream, whose tracks are as the browser delivered them; the stream the
    page had is neither reused nor stopped, and [isMuted] and [isVideoOff]
    keep their values whatever the new tracks' flags are. *)
Theorem offer_captures_again (cl : Closure) (remote : string)
    (ts : list Track) (m : Machine) :
  currentCall (csnap cl) = None → localStream (csnap cl) = None →
  let s := length (streams (w m)) in
  let c := length (calls (w m)) in
  let m' := handle cl (EOffer remote (Some ts)) m in
  localStream (st m') = Some s
  ∧ streams (w m') !! s = Some ts
  ∧ calls (w m') !! c = Some (mkCall remote (Some s) 0)
  ∧ (∀ i, i < s → streams (w m') !! i = streams (w m) !! i)
  ∧ isMuted (st m') = isMuted (st m)
  ∧ isVideoOff (st m') = isVideoOff (st m).
Proof.
  intros Hc Hs s c m'. subst s c m'.
  destruct (offer_answered_by_stale_guard cl remote ts m Hc Hs) as (Hcalls & _).
  split; [|split; [|split; [|split]]].
  - unfold handle, peer_on_call. by rewrite Hs, Hc.
  - unfold handle, peer_on_call. rewrite Hs, Hc. simpl.
    rewrite lookup_app_r by lia. by rewrite Nat.sub_diag.
  - rewrite Hcalls, lookup_app_r by lia. by rewrite Nat.sub_diag.
  - intros i Hi. unfold handle, peer_on_call. rewrite Hs, Hc. simpl.
    by rewrite lookup_app_l.
  - unfold handle, peer_on_call. by rewrite Hs, Hc.
Qed.

Lemma offer_captures_again_witness :
  currentCall (csnap cl0) = None ∧ localStream (csnap cl0) = None
  ∧ localStream (st (handle cl0 (EOffer "s1-bob-k2" (Some cam))
                       (click_toggleMute m_open))) = Some 1
  ∧ isMuted (st (handle cl0 (EOffer "s1-bob-k2" (Some cam))
                   (click_toggleMute m_open)))
    = isMuted (st (click_toggleMute m_open)).
Proof.
  split; [reflexivity|]. split; [reflexivity|].
  destruct (offer_captures_again cl0 "s1-bob-k2" cam (click_toggleMute m_open)
              eq_refl eq_refl) as (H1 & _ & _ & _ & H2 & _).
  split; [exact H1|exact H2].
Defined.



(** ** The countdown as shown *)

Lemma length_append (a b : string) :
  String.length (a +:+ b) = String.length a + String.length b.
Proof. induction a as [|c a IH]; simpl; [done|]. by rewrite IH. Qed.

Lemma append_inj_len (a1 a2 b1 b2 : string) :
  a1 +:+ b1 = a2 +:+ b2 → String.length b1 = String.length b2 →
  a1 = a2 ∧ b1 = b2.
Proof.
  revert a2. induction a1 as [|c a1 IH]; intros [|c2 a2] H Hlen.
  - done.
  - exfalso. apply (f_equal String.length) in H.
    rewrite !length_append in H. simpl in H. lia.
  - exfalso. apply (f_equal String.length) in H.
    rewrite !length_append in H. simpl in H. lia.
  - change (String c (a1 +:+ b1) = String c2 (a2 +:+ b2)) in H.
    injection H as -> H. destruct (IH a2 H Hlen) as [-> ->]. done.
Qed.

(** The seconds field of a value in [0, 60) is two decimal digits that
    spell the value. *)
Lemma seconds_two_digits (k : nat) :
  k < 60 →
  ∃ a b, padStart 2 "0" (pretty (Z.of_nat k)) = String a (String b "")
         ∧ (Ascii.nat_of_ascii a - 48) * 10 + (Ascii.nat_of_ascii b - 48) = k
         ∧ 48 ≤ Ascii.nat_of_ascii a ≤ 57 ∧ 48 ≤ Ascii.nat_of_ascii b ≤ 57.
Proof.
  intros Hk.
  do 60 (destruct k as [|k];
         [eexists _, _; split; [vm_compute; reflexivity|vm_compute; lia]|]).
  lia.
Qed.

Lemma seconds_pad_inj (r1 r2 : Z) :
  (0 ≤ r1 < 60)%Z → (0 ≤ r2 < 60)%Z →
  padStart 2 "0" (pretty r1) = padStart 2 "0" (pretty r2) → r1 = r2.
Proof.
  intros H1 H2 Heq.
  destruct (seconds_two_digits (Z.to_nat r1) ltac:(lia)) as (a1 & b1 & E1 & D1 & _).
  destruct (seconds_two_digits (Z.to_nat r2) ltac:(lia)) as (a2 & b2 & E2 & D2 & _).
  rewrite Z2Nat.id in E1, E2 by lia.
  rewrite E1, E2 in Heq. injection Heq as -> ->. lia.
Qed.

Lemma seconds_pad_length (r : Z) :
  (0 ≤ r < 60)%Z → String.length (padStart 2 "0" (pretty r)) = 2.
Proof.
  intros H.
  destruct (seconds_two_digits (Z.to_nat r) ltac:(lia)) as (a & b & E & _).
  rewrite Z2Nat.id in E by lia. by rewrite E.
Qed.

(** X14.  For a countdown that is not negative the display is the minutes,
    a colon and the seconds in exactly two decimal digits; the two numbers
    shown add up to [timeLeft], with the seconds below 60. *)
Theorem timeDisplay_shape (t : Z) :
  (0 ≤ t)%Z →
  (∃ a b, timeDisplay t = pretty (t `div` 60)%Z +:+ ":" +:+ String a (String b "")
          ∧ Z.of_nat ((Ascii.nat_of_ascii a - 48) * 10 + (Ascii.nat_of_ascii b - 48))
            = displaySeconds t
          ∧ 48 ≤ Ascii.nat_of_ascii a ≤ 57 ∧ 48 ≤ Ascii.nat_of_ascii b ≤ 57)
  ∧ (60 * displayMinutes t + displaySeconds t = t)%Z
  ∧ (0 ≤ displaySeconds t < 60)%Z.
Proof.
  intros Ht. unfold timeDisplay, displayMinutes, displaySeconds.
  pose proof (Z.rem_bound_pos t 60 Ht ltac:(lia)) as Hr.
  rewrite Z.rem_mod_nonneg in * by lia.
  pose proof (Z.div_mod t 60 ltac:(lia)) as Hd.
  split; [|split; [lia|exact Hr]].
  destruct (seconds_two_digits (Z.to_nat (t `mod` 60)) ltac:(lia))
    as (a & b & E & D & Ba & Bb).
  rewrite Z2Nat.id in E by lia.
  exists a, b. rewrite E. split; [done|]. split; [lia|]. done.
Qed.

Lemma timeDisplay_shape_witness :
  (0 ≤ 3599)%Z ∧ (60 * displayMinutes 3599 + displaySeconds 3599 = 3599)%Z
  ∧ timeDisplay 3599 = "59:59" ∧ timeDisplay 605 = "10:05".
Proof.
  assert (H : (0 ≤ 3599)%Z) by lia.
  split; [exact H|].
  destruct (timeDisplay_shape 3599 H) as (_ & H1 & _).
  split; [exact H1|]. split; vm_compute; reflexivity.
Defined.

Lemma display_inj (a b : Z) :
  (0 ≤ a)%Z → (0 ≤ b)%Z → timeDisplay a = timeDisplay b → a = b.
Proof.
  intros Ha Hb Heq. unfold timeDisplay, displayMinutes, displaySeconds in Heq.
  pose proof (Z.rem_bound_pos a 60 Ha ltac:(lia)) as Hra.
  pose proof (Z.rem_bound_pos b 60 Hb ltac:(lia)) as Hrb.
  apply append_inj_len in Heq.
  - destruct Heq as [Hm Hs]. apply (inj pretty) in Hm.
    apply append_inj_r in Hs. apply seconds_pad_inj in Hs; [|done..].
    rewrite !Z.rem_mod_nonneg in Hs by lia.
    pose proof (Z.div_mod a 60 ltac:(lia)).
    pose proof (Z.div_mod b 60 ltac:(lia)). lia.
  - by rewrite !length_append, !seconds_pad_length.
Qed.

(** X15.  Two countdown values that are not negative are shown alike only
    when they are equal. *)
Theorem timeDisplay_inj (a b : Z) :
  (0 ≤ a)%Z → (0 ≤ b)%Z → timeDisplay a = timeDisplay b → a = b.
Proof. apply display_inj. Qed.

Lemma timeDisplay_inj_witness :
  (0 ≤ 61)%Z ∧ timeDisplay 61 = timeDisplay (60 + 1) ∧ 61%Z = (60 + 1)%Z.
Proof.
  assert (H : (0 ≤ 61)%Z) by lia.
  assert (H' : (0 ≤ 60 + 1)%Z) by lia.
  assert (E : timeDisplay 61 = timeDisplay (60 + 1)) by reflexivity.
  split; [exact H|]. split; [exact E|].
  exact (timeDisplay_inj 61 (60 + 1) H H' E).
Defined.

Lemma negative_seconds_unpadded (k : nat) :
  k < 59 →
  padStart 2 "0" (pretty (- Z.of_nat (S k))%Z) = pretty (- Z.of_nat (S k))%Z.
Proof.
  intros Hk.
  do 59 (destruct k as [|k]; [vm_compute; reflexivity|]).
  lia.
Qed.

Lemma display_negative (t : Z) :
  (t < 0)%Z → displaySeconds t ≠ 0%Z →
  (60 * displayMinutes t + displaySeconds t = t - 60)%Z
  ∧ (-60 < displaySeconds t < 0)%Z
  ∧ ((-60 < t)%Z → timeDisplay t = "-1:" +:+ pretty t).
Proof.
  intros Ht Hne. unfold timeDisplay, displayMinutes, displaySeconds in *.
  assert (Hr : (-60 < t `rem` 60 ≤ 0)%Z).
  { pose proof (Z.rem_bound_pos (- t) 60 ltac:(lia) ltac:(lia)) as Hp.
    rewrite Z.rem_opp_l in Hp by lia. lia. }
  pose proof (Z.quot_rem' t 60) as Hq.
  pose proof (Z.div_mod t 60 ltac:(lia)) as Hd.
  pose proof (Z.mod_pos_bound t 60 ltac:(lia)) as Hm.
  split; [lia|]. split; [lia|].
  intros Hlo.
  assert (Hdiv : (t `div` 60 = -1)%Z) by lia.
  assert (Hrem : (t `rem` 60 = t)%Z) by lia.
  rewrite Hdiv, Hrem.
  replace t with (- Z.of_nat (S (Z.to_nat (- t - 1))))%Z by lia.
  rewrite negative_seconds_unpadded by lia. reflexivity.
Qed.

(** X16.  A negative countdown is shown one minute too low: the minutes
    are rounded down while the seconds keep the sign of [timeLeft], so the
    two numbers shown add up to [timeLeft - 60] unless [timeLeft] is a
    multiple of 60; between -59 and -1 the display is ["-1:"] followed by
    the negative number itself, unpadded. *)
Theorem timeDisplay_negative (t : Z) :
  (t < 0)%Z → displaySeconds t ≠ 0%Z →
  (60 * displayMinutes t + displaySeconds t = t - 60)%Z
  ∧ (-60 < displaySeconds t < 0)%Z
  ∧ ((-60 < t)%Z → timeDisplay t = "-1:" +:+ pretty t).
Proof. apply display_negative. Qed.

Lemma timeDisplay_negative_witness :
  (-2 < 0)%Z ∧ displaySeconds (-2) ≠ 0%Z
  ∧ (60 * displayMinutes (-2) + displaySeconds (-2) = -2 - 60)%Z
  ∧ timeDisplay (-2) = "-1:-2".
Proof.
  assert (H1 : (-2 < 0)%Z) by lia.
  assert (H2 : displaySeconds (-2) ≠ 0%Z) by (vm_compute; discriminate).
  split; [exact H1|]. split; [exact H2|].
  destruct (timeDisplay_negative (-2) H1 H2) as (Ha & _ & Hb).
  split; [exact Ha|]. exact (Hb ltac:(lia)).
Defined.

(** * Properties of the landing page *)

(** ** The redirect flag and the effect that depends on it *)

Lemma home_handle_frame (e : Home.Event) (m : Home.Machine) :
  Home.effect (Home.handle e m) = Home.effect m
  ∧ Home.interval (Home.handle e m) = Home.interval m.
Proof.
  destruct e; unfold Home.handle.
  - destruct (Home.interval m) eqn:E; [|by rewrite E].
    unfold Home.checkStatus. by destruct (default false (Home.effect m)).
  - destruct (Home.requests m) as [|n]; [done|].
    unfold Home.checkStatus_resume. destruct resp as [d|]; [|done].
    destruct (String.eqb (Home.s_status d) "in_session"); [done|].
    destruct (String.eqb (Home.s_status d) "in_chat"); [done|].
    destruct (String.eqb (Home.s_status d) "queued"); [|done].
    destruct (Home.at_least_two (Home.s_totalInQueue d)); [|done].
    destruct matchResult as [sid|]; [|done].
    by destruct (truthy_str sid).
  - unfold Home.push_rejected. by destruct inner.
  - unfold Home.startMatching. destruct resp as [e|]; [|done].
    by destruct (truthy_str e).
  - unfold Home.cancelSearch. by destruct ok.
Qed.

Lemma home_settle_settled (m : Home.Machine) :
  Home.effect m = Some false → Home.interval m = true →
  Home.settled (Home.settle m).
Proof.
  intros He Hi. destruct m as [s l i e r]. simpl in He, Hi. subst.
  destruct s as [a b c d f g]. unfold Home.settled, Home.settle, Home.render.
  destruct g; simpl; done.
Qed.

(** X17.  The flag [isRedirecting] never outlives the render that follows
    its setting: the effect depends on it, its cleanup resets it, and the
    effect runs again closed over [false].  So in every state the page
    reaches the flag is [false], the interval is armed, and a tick of the
    interval does send a status request: the guard [if (isRedirecting)
    return] holds back no poll. *)
Theorem home_flag_always_reset (now : Z) (es : list Home.Event) :
  let m := Home.run es (Home.mount now) in
  Home.settled m
  ∧ Home.render m = m
  ∧ Home.log (Home.handle Home.ETick m) = Home.log m ++ [Home.OpGetStatus].
Proof.
  intros m.
  assert (H : Home.settled m).
  { subst m. generalize (Home.mount now), (conj (conj eq_refl (conj eq_refl eq_refl))
      I : Home.settled (Home.mount now) ∧ True).
    induction es as [|e es IH]; intros m0 [H0 _]; [exact H0|].
    apply IH. split; [|done]. unfold Home.step.
    destruct H0 as (He & _ & Hi).
    destruct (home_handle_frame e m0) as [E1 E2].
    apply home_settle_settled; congruence. }
  destruct H as (He & Hr & Hi). split; [done|]. split.
  - unfold Home.render. by rewrite He, Hr.
  - unfold Home.handle, Home.checkStatus. by rewrite Hi, He.
Qed.

(** X18.  A reply [in_session] on a page at rest pushes the call route and
    sets the flag, and the renders that follow reset the flag and start a
    new status check at once: the log gains the push and then a status
    request, the status line reads ["Checking status..."] again, and a
    second such reply pushes the same route a second time. *)
Theorem home_redirect_resets_flag (m : Home.Machine) (n : nat) (now now' : Z)
    (d : Home.MatchmakingStatus) (mr mr' : option (option string)) :
  Home.settled m → Home.requests m = S n → Home.s_status d = "in_session" →
  let route := Home.OpPush ("/call/" +:+ Home.template (Home.s_sessionId d)) in
  let m' := Home.step (Home.EReply now (Some d) mr) m in
  Home.log m' = Home.log m ++ [route; Home.OpGetStatus]
  ∧ Home.isRedirecting (Home.st m') = false
  ∧ Home.requests m' = S n
  ∧ Home.connectionStatus (Home.st m') = "Checking status..."
  ∧ Home.pushes (Home.step (Home.EReply now' (Some d) mr') m')
    = Home.pushes m ++ [route; route].
Proof.
  intros (He & Hr & Hi) Hn Hd route m'. subst route m'.
  destruct m as [s l i e r]. simpl in He, Hr, Hi, Hn. subst.
  destruct s as [a b c t f g]. simpl in Hr. subst.
  unfold Home.step, Home.handle, Home.checkStatus_resume. simpl. rewrite Hd. simpl.
  rewrite <- !app_assoc. simpl.
  split; [done|]. split; [done|]. split; [done|]. split; [done|].
  unfold Home.pushes. simpl. rewrite !filter_app. simpl.
  rewrite <- !app_assoc. reflexivity.
Qed.

Lemma home_redirect_resets_flag_witness :
  Home.settled (Home.mount 0) ∧ Home.requests (Home.mount 0) = 1
  ∧ Home.log (Home.step (Home.EReply 5
       (Some (Home.mkStatus "in_session" None (Some "s1") None None None None None None))
       None) (Home.mount 0))
    = Home.log (Home.mount 0) ++ [Home.OpPush "/call/s1"; Home.OpGetStatus].
Proof.
  assert (H1 : Home.settled (Home.mount 0)) by (repeat split).
  assert (H2 : Home.requests (Home.mount 0) = 1) by reflexivity.
  split; [exact H1|]. split; [exact H2|].
  destruct (home_redirect_resets_flag (Home.mount 0) 0 5 5
              (Home.mkStatus "in_session" None (Some "s1") None None None None None None)
              None None H1 H2 eq_refl) as (H & _).
  exact H.
Defined.

(** ** What a status reply does *)

(** X19.  A reply whose status is neither [in_session], [in_chat] nor
    [queued], or which is [queued] with fewer than two in the queue (or no
    count at all), never navigates and never asks for a match: the reply is
    stored, the time of the update is taken, the status line reads
    ["Connected"], and the flag, the error and the log are untouched. *)
Theorem home_reply_without_action (now : Z) (d : Home.MatchmakingStatus)
    (mr : option (option string)) (m : Home.Machine) :
  Home.s_status d ≠ "in_session" → Home.s_status d ≠ "in_chat" →
  Home.s_status d ≠ "queued" ∨ Home.at_least_two (Home.s_totalInQueue d) = false →
  let m' := Home.checkStatus_resume now (Some d) mr m in
  Home.log m' = Home.log m
  ∧ Home.isRedirecting (Home.st m') = Home.isRedirecting (Home.st m)
  ∧ Home.error (Home.st m') = Home.error (Home.st m)
  ∧ Home.status (Home.st m') = d
  ∧ Home.lastStatusUpdate (Home.st m') = now
  ∧ Home.connectionStatus (Home.st m') = "Connected".
Proof.
  intros H1 H2 H3 m'. subst m'. unfold Home.checkStatus_resume.
  apply String.eqb_neq in H1, H2. rewrite H1, H2.
  destruct H3 as [H3|H3].
  - apply String.eqb_neq in H3. by rewrite H3.
  - rewrite H3. by destruct (String.eqb (Home.s_status d) "queued").
Qed.

Lemma home_reply_without_action_witness :
  "cooldown" ≠ "in_session" ∧ "cooldown" ≠ "in_chat"
  ∧ Home.log (Home.checkStatus_resume 7
       (Some (Home.mkStatus "cooldown" (Some 90000%Z) None None None None None None None))
       None (Home.mount 0))
    = Home.log (Home.mount 0).
Proof.
  assert (H1 : "cooldown" ≠ "in_session") by discriminate.
  assert (H2 : "cooldown" ≠ "in_chat") by discriminate.
  assert (H3 : "cooldown" ≠ "queued") by discriminate.
  split; [exact H1|]. split; [exact H2|].
  destruct (home_reply_without_action 7
              (Home.mkStatus "cooldown" (Some 90000%Z) None None None None None None None)
              None (Home.mount 0) H1 H2 (or_introl H3)) as (H & _).
  exact H.
Defined.

(** X20.  Where a reply sends the user: [in_session] to ["/call/" +
    sessionId], [in_chat] to ["/chat/" + sessionId], with the text
    [undefined] in place of a session id the reply does not carry; a
    [queued] reply with two or more in the queue asks for a match once and
    goes to ["/call/" + id] exactly when the match has a non-empty id. *)
Theorem home_redirect_routes (now : Z) (d : Home.MatchmakingStatus) (m : Home.Machine) :
  (∀ mr, Home.s_status d = "in_session" →
     Home.log (Home.checkStatus_resume now (Some d) mr m)
     = Home.log m ++ [Home.OpPush ("/call/" +:+ default "undefined" (Home.s_sessionId d))])
  ∧ (∀ mr, Home.s_status d = "in_chat" →
     Home.log (Home.checkStatus_resume now (Some d) mr m)
     = Home.log m ++ [Home.OpPush ("/chat/" +:+ default "undefined" (Home.s_sessionId d))])
  ∧ (Home.s_status d = "queued" → Home.at_least_two (Home.s_totalInQueue d) = true →
     (∀ sid, sid ≠ "" →
        Home.log (Home.checkStatus_resume now (Some d) (Some (Some sid)) m)
        = Home.log m ++ [Home.OpCreateMatch; Home.OpPush ("/call/" +:+ sid)])
     ∧ (∀ mr, mr = None ∨ mr = Some None ∨ mr = Some (Some "") →
        Home.log (Home.checkStatus_resume now (Some d) mr m)
        = Home.log m ++ [Home.OpCreateMatch]
        ∧ Home.isRedirecting (Home.st (Home.checkStatus_resume now (Some d) mr m))
          = Home.isRedirecting (Home.st m))).
Proof.
  unfold Home.checkStatus_resume, Home.template. split; [|split].
  - intros mr ->. reflexivity.
  - intros mr ->. reflexivity.
  - intros -> ->. simpl. split.
    + intros sid Hne. simpl.
      destruct (String.eqb_spec sid "") as [->|_]; [done|]. simpl.
      by rewrite <- app_assoc.
    + intros mr [->|[->| ->]]; done.
Qed.

Lemma home_redirect_routes_witness :
  Home.log (Home.checkStatus_resume 3
     (Some (Home.mkStatus "in_session" None None None None None None None None))
     None (Home.mount 0))
  = Home.log (Home.mount 0) ++ [Home.OpPush "/call/undefined"].
Proof.
  destruct (home_redirect_routes 3
              (Home.mkStatus "in_session" None None None None None None None None)
              (Home.mount 0)) as (H & _).
  exact (H None eq_refl).
Defined.

(** X21.  A status request that fails sets the status line ["Connection
    lost, retrying..."] and the error ["Failed to connect to server"],
    keeps the last status received, navigates nowhere, and the page goes on
    polling: it is at rest with the interval armed. *)
Theorem home_reply_failure (now : Z) (mr : option (option string))
    (m : Home.Machine) (n : nat) :
  Home.settled m → Home.requests m = S n →
  let m' := Home.step (Home.EReply now None mr) m in
  Home.error (Home.st m') = Some "Failed to connect to server"
  ∧ Home.connectionStatus (Home.st m') = "Connection lost, retrying..."
  ∧ Home.status (Home.st m') = Home.status (Home.st m)
  ∧ Home.lastStatusUpdate (Home.st m') = Home.lastStatusUpdate (Home.st m)
  ∧ Home.log m' = Home.log m
  ∧ Home.requests m' = n
  ∧ Home.settled m'.
Proof.
  intros (He & Hr & Hi) Hn m'. subst m'.
  destruct m as [s l i e r]. simpl in He, Hr, Hi, Hn. subst.
  destruct s as [a b c t f g]. simpl in Hr. subst.
  unfold Home.step, Home.handle, Home.settled. simpl. done.
Qed.

Lemma home_reply_failure_witness :
  Home.settled (Home.mount 0) ∧ Home.requests (Home.mount 0) = 1
  ∧ Home.error (Home.st (Home.step (Home.EReply 9 None None) (Home.mount 0)))
    = Some "Failed to connect to server".
Proof.
  assert (H1 : Home.settled (Home.mount 0)) by (repeat split).
  assert (H2 : Home.requests (Home.mount 0) = 1) by reflexivity.
  split; [exact H1|]. split; [exact H2|].
  destruct (home_reply_failure 9 None (Home.mount 0) 0 H1 H2) as (H & _).
  exact H.
Defined.

(** ** Joining and leaving the queue *)

(** X22.  [startMatching] asks the backend once; afterwards [isSearching]
    is true exactly when the call returned without an error text, and then
    no error is shown; in every other case (rejected call, error text in
    the response) [isSearching] is false and an error text is shown.
    [cancelSearch] asks once; on success [isSearching] is false and no error
    is shown, on failure [isSearching] keeps its value and the cancel error
    is shown. *)
Theorem home_search_outcomes (m : Home.Machine) :
  (∀ resp,
     let m' := Home.startMatching resp m in
     Home.log m' = Home.log m ++ [Home.OpJoin]
     ∧ (Home.isSearching (Home.st m') = true
        ↔ ∃ e, resp = Some e ∧ truthy_str e = false)
     ∧ (Home.isSearching (Home.st m') = true → Home.error (Home.st m') = None)
     ∧ (Home.isSearching (Home.st m') = false
        → truthy_str (Home.error (Home.st m')) = true))
  ∧ (let m' := Home.cancelSearch true m in
     Home.log m' = Home.log m ++ [Home.OpCancel]
     ∧ Home.isSearching (Home.st m') = false ∧ Home.error (Home.st m') = None)
  ∧ (let m' := Home.cancelSearch false m in
     Home.log m' = Home.log m ++ [Home.OpCancel]
     ∧ Home.isSearching (Home.st m') = Home.isSearching (Home.st m)
     ∧ Home.error (Home.st m') = Some "Failed to cancel matchmaking").
Proof.
  split; [|done]. intros resp m'. subst m'. unfold Home.startMatching.
  destruct resp as [e|]; simpl.
  - destruct (truthy_str e) eqn:E; simpl.
    + repeat split; try done. intros (e' & [= <-] & He). congruence.
    + repeat split; try done. intros _. by exists e.
  - repeat split; try done. intros (e' & He & _). done.
Qed.

(** ** Durations as shown *)

Lemma home_formatTime_display (ms : Z) :
  Home.formatTime ms = timeDisplay (ms `div` 1000).
Proof. reflexivity. Qed.

(** X23.  [formatTime] prints two durations that are not negative alike
    exactly when they fall in the same second.  A duration from 59 seconds
    to one millisecond below zero (the client clock behind the server's)
    is printed as ["-1:"] followed by the negative number of seconds,
    rounded down. *)
Theorem home_formatTime_seconds (a b : Z) :
  ((0 ≤ a)%Z → (0 ≤ b)%Z →
   (Home.formatTime a = Home.formatTime b ↔ (a `div` 1000 = b `div` 1000)%Z))
  ∧ ((-59000 ≤ a < 0)%Z →
     Home.formatTime a = "-1:" +:+ pretty (a `div` 1000)%Z).
Proof.
  split.
  - intros Ha Hb. rewrite !home_formatTime_display. split.
    + apply display_inj; apply Z.div_pos; lia.
    + by intros ->.
  - intros Ha. rewrite home_formatTime_display.
    assert (Hlo : (-59 ≤ a `div` 1000)%Z) by (apply Z.div_le_lower_bound; lia).
    assert (Hhi : (a `div` 1000 < 0)%Z) by (apply Z.div_lt_upper_bound; lia).
    assert (Hs : displaySeconds (a `div` 1000) ≠ 0%Z).
    { unfold displaySeconds.
      pose proof (Z.rem_small (- (a `div` 1000))%Z 60%Z ltac:(lia)) as Hr.
      rewrite Z.rem_opp_l in Hr by lia. lia. }
    destruct (display_negative (a `div` 1000)%Z Hhi Hs) as (_ & _ & H).
    apply H. lia.
Qed.

Lemma home_formatTime_seconds_witness :
  (0 ≤ 61000)%Z ∧ (0 ≤ 61999)%Z
  ∧ Home.formatTime 61000 = Home.formatTime 61999
  ∧ Home.formatTime 61000 = "1:01"
  ∧ Home.formatTime (-5200) = "-1:-6".
Proof.
  assert (H1 : (0 ≤ 61000)%Z) by lia.
  assert (H2 : (0 ≤ 61999)%Z) by lia.
  assert (H3 : (-59000 ≤ -5200 < 0)%Z) by lia.
  split; [exact H1|]. split; [exact H2|].
  destruct (home_formatTime_seconds 61000 61999) as [Hiff _].
  destruct (home_formatTime_seconds (-5200) 0) as [_ Hneg].
  split; [apply (Hiff H1 H2); reflexivity|].
  split; [vm_compute; reflexivity|].
  rewrite (Hneg H3). vm_compute. reflexivity.
Defined.
